(** * PyTerrier iter-dict indexers: validation, projection, fan-out, build.

    Shallow embedding of [pyterrier/terrier/index.py]: the classes
    [TerrierIndexer], [_BaseIterDictIndexer], [_IterDictIndexer_nofifo] and
    [_IterDictIndexer_fifo].  Python values are an inductive type, dicts that
    are only looked up are [gmap]s, dicts and lists that are iterated are
    lists (iteration order is insertion order), exceptions are the [Err] side
    of a result type, [warnings.warn] is a log. *)

From Stdlib Require Import ZArith String Ascii List Permutation.
From stdpp Require Import base option gmap strings list fin_maps sets.

Local Open Scope string_scope.
Local Open Scope Z_scope.
Local Open Scope list_scope.

(** ** Python values *)

(** A Python [float]: finite doubles are [m * 2^e]. *)
Inductive pyfloat : Type :=
| FFinite (m e : Z)
| FInf (negative : bool)
| FNan.

Inductive scalar : Type :=
| SNone
| SBool (b : bool)
| SInt (z : Z)
| SFloat (f : pyfloat)
| SStr (s : string).

(** Field values of a document: a scalar (normally a [str]) or, for the
    ['toks'] column, a dict from token to frequency, kept in insertion
    order. *)
Inductive value : Type :=
| VScalar (a : scalar)
| VDict (items : list (string * scalar)).

Abbreviation doc := (gmap string value).

(** An element of the input iterable: dict-like, or any other object (a
    [str], a [list], a number ...) named by its type. *)
Inductive pyobj : Type :=
| PyDict (d : doc)
| PyOther (tyname : string).

(** ** Exceptions and warnings *)

Inductive pyerror : Type :=
| TypeValidationError (tyname : string)
    (* ValueError("Was passed %s while expected dict-like object") *)
| MissingFieldError (k : string) (keys : gset string)
    (* ValueError("Indexing meta key {k} not found in first document (keys ...)") *)
| IdentifierTooLongError (k : string) (requested : Z) (actual : nat)
    (* ValueError("Indexing meta key {k} length requested ... but exceeded ...") *)
| ConfigurationError (msg : string)          (* ValueError raised by a constructor *)
| FieldsArgumentError (msg : string)         (* ValueError raised for index(it, fields) *)
| IndexExistsError (path : string)           (* ValueError("Index already exists at ...") *)
| AlreadyBuiltError                          (* Exception("Index method can be called only once") *)
| MemoryBlocksError                          (* Exception("Memory indexing with positions not yet implemented") *)
| PyAssertionError (msg : string)
| PyKeyError (k : string)
| PyTypeError
| PyValueError
| PyOverflowError
| PyAttributeError
| PyIndexError
| HookError (hook : nat).

Inductive warning : Type :=
| MetaLengthWarning (k : string) (requested : Z) (actual : nat)
| NonDeterministicOrderWarning.

Inductive result (A : Type) : Type :=
| Ok (a : A)
| Err (e : pyerror).
Arguments Ok {A} a.
Arguments Err {A} e.

#[global] Instance result_ret : MRet result := λ A a, Ok a.
#[global] Instance result_bind : MBind result := λ A B k r,
  match r with
  | Ok a => k a
  | Err e => Err e
  end.

Definition is_ok {A : Type} (r : result A) : bool :=
  match r with Ok _ => true | Err _ => false end.

(** ** Builtins used by the indexers *)

(** [len(v)]: defined on strings and dicts.  A string is its sequence of
    characters, one [ascii] each. *)
Definition py_len (v : value) : result nat :=
  match v with
  | VScalar (SStr s) => Ok (String.length s)
  | VDict items => Ok (length items)
  | VScalar _ => Err PyTypeError
  end.

Definition is_space (c : ascii) : bool :=
  let n := nat_of_ascii c in
  ((9 <=? n)%nat && (n <=? 13)%nat) || ((28 <=? n)%nat && (n <=? 32)%nat).

Definition digit_of (c : ascii) : option Z :=
  let n := nat_of_ascii c in
  if ((48 <=? n)%nat && (n <=? 57)%nat) then Some (Z.of_nat (n - 48)) else None.

Fixpoint lstrip (cs : list ascii) : list ascii :=
  match cs with
  | c :: cs' => if is_space c then lstrip cs' else cs
  | [] => []
  end.

Definition strip (cs : list ascii) : list ascii :=
  rev (lstrip (rev (lstrip cs))).

(** Decimal digits, single underscores allowed between digits.
    [after_digit] says whether the previous character was a digit. *)
Fixpoint digits_value (acc : Z) (after_digit : bool) (cs : list ascii) : option Z :=
  match cs with
  | [] => if after_digit then Some acc else None
  | c :: cs' =>
      match digit_of c with
      | Some d => digits_value (10 * acc + d) true cs'
      | None =>
          if (Ascii.eqb c "_" && after_digit)%bool
          then digits_value acc false cs'
          else None
      end
  end.

(** [int(s)] for a [str], base 10 (ASCII digits and whitespace). *)
Definition int_of_str (s : string) : option Z :=
  match strip (list_ascii_of_string s) with
  | c :: cs =>
      if Ascii.eqb c "-" then Z.opp <$> digits_value 0 false cs
      else if Ascii.eqb c "+" then digits_value 0 false cs
      else digits_value 0 false (c :: cs)
  | [] => None
  end.

(** [int(v)]. *)
Definition py_int (a : scalar) : result Z :=
  match a with
  | SNone => Err PyTypeError
  | SBool b => Ok (if b then 1 else 0)
  | SInt z => Ok z
  | SFloat (FFinite m e) =>
      Ok (if 0 <=? e then m * 2 ^ e else Z.quot m (2 ^ (- e)))
  | SFloat (FInf _) => Err PyOverflowError
  | SFloat FNan => Err PyValueError
  | SStr s =>
      match int_of_str s with
      | Some z => Ok z
      | None => Err PyValueError
      end
  end.

(** ** The indexer object *)

Inductive IndexingType : Type := CLASSIC | SINGLEPASS | MEMORY.

#[global] Instance IndexingType_eq_dec : EqDecision IndexingType.
Proof. solve_decision. Defined.

Inductive TerrierStemmer : Type := porter | other_stemmer (name : string).
Inductive TerrierStopwords : Type := terrier | custom_stopwords.

(** A cleanup hook [hook(self, index)]: identified by a number, and either
    returning or raising. *)
Record hook : Type := { hook_id : nat; hook_raises : bool }.

Record indexer : Type := {
  path : option string;
  index_dir : string;
  index_called : bool;
  blocks : bool;
  overwrite : bool;
  type : IndexingType;
  stemmer : option TerrierStemmer;
  stopwords : option TerrierStopwords;
  cleanup_hooks : list hook;
  threads : Z;
  text_attrs : list string;
  meta : list (string * Z);
  pretokenised : bool;
  fields : bool
}.

Definition set_index_called (b : bool) (self : indexer) : indexer :=
  {| path := path self; index_dir := index_dir self; index_called := b;
     blocks := blocks self; overwrite := overwrite self; type := type self;
     stemmer := stemmer self; stopwords := stopwords self;
     cleanup_hooks := cleanup_hooks self; threads := threads self;
     text_attrs := text_attrs self; meta := meta self;
     pretokenised := pretokenised self; fields := fields self |}.

Definition set_cleanup_hooks (hs : list hook) (self : indexer) : indexer :=
  {| path := path self; index_dir := index_dir self;
     index_called := index_called self;
     blocks := blocks self; overwrite := overwrite self; type := type self;
     stemmer := stemmer self; stopwords := stopwords self;
     cleanup_hooks := hs; threads := threads self;
     text_attrs := text_attrs self; meta := meta self;
     pretokenised := pretokenised self; fields := fields self |}.

(** ** [_BaseIterDictIndexer._validate_doc_dict] *)

(** [_is_dict]: the object has [__getitem__] and [items]. *)
Definition _is_dict (obj : pyobj) : bool :=
  match obj with PyDict _ => true | PyOther _ => false end.

(** The body of the loop [for k in self.meta], for the key [k] and its bound
    [int(self.meta[k])], on a dict-like first document: the warnings emitted
    and whether it raised. *)
Definition check_meta_key (k : string) (bound : Z) (d : doc) : list warning * result unit :=
  match d !! k with
  | None => ([], Err (MissingFieldError k (dom d)))
  | Some v =>
      match py_len v with
      | Err e => ([], Err e)
      | Ok n =>
          if bound <? Z.of_nat n then
            if String.eqb k "docno"
            then ([], Err (IdentifierTooLongError k bound n))
            else ([MetaLengthWarning k bound n], Ok tt)
          else ([], Ok tt)
      end
  end.

(** The loop itself, over the items of [self.meta] in insertion order. *)
Fixpoint validate_meta (m : list (string * Z)) (d : doc) : list warning * result unit :=
  match m with
  | [] => ([], Ok tt)
  | (k, bound) :: rest =>
      match check_meta_key k bound d with
      | (ws, Err e) => (ws, Err e)
      | (ws, Ok _) => let '(ws', r) := validate_meta rest d in (ws ++ ws', r)
      end
  end.

Definition type_name (obj : pyobj) : string :=
  match obj with PyDict _ => "dict" | PyOther ty => ty end.

Definition items_of (obj : pyobj) : doc :=
  match obj with PyDict d => d | PyOther _ => ∅ end.

(** [self.meta] is a dict, never [None], so the loop always runs. *)
Definition _validate_doc_dict (self : indexer) (obj : pyobj) : list warning * result unit :=
  if negb (_is_dict obj) then ([], Err (TypeValidationError (type_name obj)))
  else validate_meta (meta self) (items_of obj).

(** ** [_BaseIterDictIndexer._filter_iterable] *)

(** The source iterator: what is left, and how many items were pulled. *)
Record source : Type := { remaining : list pyobj; pulled : nat }.

Definition iter (l : list pyobj) : source := {| remaining := l; pulled := 0 |}.

(** [more_itertools.spy(it)]: takes one item, returns it together with an
    iterator that chains it back in front of the source. *)
Definition spy (it : source) : list pyobj * (list pyobj * source) :=
  match remaining it with
  | [] => ([], ([], it))
  | x :: rest => ([x], ([x], {| remaining := rest; pulled := S (pulled it) |}))
  end.

(** The generator expression [({f: doc[f] for f in all_cols} for doc in it)]:
    not yet run; [it] is the chained iterator returned by [spy]. *)
Record genexpr : Type := {
  gen_cols : gset string;
  gen_chained : list pyobj;
  gen_source : source
}.

Definition all_cols (self : indexer) : gset string :=
  {["docno"]} ∪ list_to_set (text_attrs self) ∪ list_to_set (meta self).*1.

Record filtered : Type := {
  after_call : source;          (* the caller's iterator after the call *)
  warned : list warning;
  returned : result genexpr
}.

Definition _filter_iterable (self : indexer) (it : source) : filtered :=
  let '(first_docs, (hd, it')) := spy it in
  let '(ws, r) :=
    match first_docs with
    | obj :: _ => _validate_doc_dict self obj
    | [] => ([], Ok tt)
    end in
  {| after_call := it';
     warned := ws;
     returned := _ ← r;
                 Ok {| gen_cols := all_cols self; gen_chained := hd; gen_source := it' |} |}.

(** The dict comprehension [{f: doc[f] for f in all_cols}], over the keys in
    iteration order. *)
Fixpoint project_keys (ks : list string) (d : doc) : result doc :=
  match ks with
  | [] => Ok ∅
  | f :: ks' =>
      match d !! f with
      | None => Err (PyKeyError f)
      | Some v => r ← project_keys ks' d; Ok (<[f := v]> r)
      end
  end.

(** The keys are taken in the order of [elements]; Python takes them in
    the iteration order of the set, which only decides which missing key a
    [KeyError] names.  [doc[f]] on an object that is not a mapping is a
    [TypeError]. *)
Definition project (cols : gset string) (obj : pyobj) : result doc :=
  match obj with
  | PyDict d => project_keys (elements cols) d
  | PyOther _ => Err PyTypeError
  end.

(** Running an iterator to its end: the items it yields, and the exception
    that ended it, if one did. *)
Abbreviation stream := (list doc * option pyerror)%type.

Fixpoint project_all (cols : gset string) (objs : list pyobj) : stream :=
  match objs with
  | [] => ([], None)
  | obj :: rest =>
      match project cols obj with
      | Err e => ([], Some e)
      | Ok d => let '(ds, e) := project_all cols rest in (d :: ds, e)
      end
  end.

Definition consume (g : genexpr) : stream :=
  project_all (gen_cols g) (gen_chained g ++ remaining (gen_source g)).

(** ** [_IterDictIndexer_fifo._write_fifos] *)

(** [{k: int(v) for k, v in doc['toks'].items()}] *)
Fixpoint cast_items (items : list (string * scalar)) : result (list (string * scalar)) :=
  match items with
  | [] => Ok []
  | (k, v) :: rest =>
      z ← py_int v;
      rest' ← cast_items rest;
      Ok ((k, SInt z) :: rest')
  end.

(** [if 'toks' in doc: doc['toks'] = {...}] *)
Definition cast_toks (d : doc) : result doc :=
  match d !! "toks" with
  | None => Ok d
  | Some (VDict items) =>
      items' ← cast_items items;
      Ok (<["toks" := VDict items']> d)
  | Some (VScalar _) => Err PyAttributeError
  end.

(** [select.select([], fifos, [])]: the fifos that can be written to at the
    time of the call, in the order of [fifos].  [ready_at c i] says whether
    fifo [i] is writable at the [c]-th call. *)
Definition select (ready_at : nat → nat → bool) (call nfifos : nat) : list nat :=
  filter (λ i, ready_at call i) (seq 0 nfifos).

Record writer : Type := {
  channels : list (list doc);   (* the lines written to each fifo, oldest first *)
  ready : list nat;             (* the deque [ready]; [None] is the empty one *)
  selects : nat                 (* calls of select made so far *)
}.

(** One pass through the body of [for doc in it]. *)
Definition write_one (ready_at : nat → nat → bool) (w : writer) (d : doc)
  : writer * result unit :=
  let n := length (channels w) in
  let '(rd, calls) :=
    match ready w with
    | [] =>
        if (1 <? n)%nat then (select ready_at (selects w) n, S (selects w))
        else (seq 0 n, selects w)
    | _ :: _ => (ready w, selects w)
    end in
  match rd with
  | [] =>
      ({| channels := channels w; ready := []; selects := calls |}, Err PyIndexError)
  | i :: rd' =>
      match cast_toks d with
      | Err e =>
          ({| channels := channels w; ready := rd'; selects := calls |}, Err e)
      | Ok d' =>
          ({| channels := alter (λ l, l ++ [d']) i (channels w);
              ready := rd'; selects := calls |}, Ok tt)
      end
  end.

Fixpoint write_all (ready_at : nat → nat → bool) (w : writer) (ds : list doc)
  : writer * option pyerror :=
  match ds with
  | [] => (w, None)
  | d :: rest =>
      match write_one ready_at w d with
      | (w', Err e) => (w', Some e)
      | (w', Ok _) => write_all ready_at w' rest
      end
  end.

(** [it] is the run of the iterator handed to the writer: the records it
    yields and the exception it ends with, if any.  The [ExitStack] closes
    every fifo on the way out, also when the loop raises; what was written
    stays written. *)
Definition _write_fifos (ready_at : nat → nat → bool) (it : stream) (nfifos : nat)
  : writer * option pyerror :=
  let w0 := {| channels := replicate nfifos []; ready := []; selects := 0 |} in
  match write_all ready_at w0 it.1 with
  | (w, Some e) => (w, Some e)
  | (w, None) => (w, it.2)
  end.

(** ** Constructors *)

(** [os.path.join(a, b)] for a relative [b]. *)
Definition path_join (a b : string) : string :=
  match rev (list_ascii_of_string a) with
  | [] => b
  | c :: _ => if Ascii.eqb c "/" then a +:+ b else a +:+ "/" +:+ b
  end.

(** Keyword arguments of the constructors, with their defaults. *)
Record kwargs : Type := {
  kw_blocks : bool;
  kw_overwrite : bool;
  kw_stemmer : option TerrierStemmer;
  kw_stopwords : option TerrierStopwords;
  kw_type : IndexingType;
  kw_meta : list (string * Z);
  kw_text_attrs : list string;
  kw_pretokenised : bool;
  kw_fields : bool;
  kw_threads : Z
}.

Definition defaults : kwargs :=
  {| kw_blocks := false; kw_overwrite := false;
     kw_stemmer := Some porter; kw_stopwords := Some terrier;
     kw_type := CLASSIC; kw_meta := [("docno", 20)]; kw_text_attrs := ["text"];
     kw_pretokenised := false; kw_fields := false; kw_threads := 1 |}.

Module TerrierIndexer.

(** The fields of [_BaseIterDictIndexer] are filled in by its own
    constructor; here they hold the arguments it will store. *)
Definition __init__ (index_path : string) (kw : kwargs) : indexer :=
  {| path := if decide (kw_type kw = MEMORY) then None
             else Some (path_join index_path "data.properties");
     index_dir := index_path;
     index_called := false;
     blocks := kw_blocks kw;
     overwrite := kw_overwrite kw;
     type := kw_type kw;
     stemmer := kw_stemmer kw;
     stopwords := kw_stopwords kw;
     cleanup_hooks := [];
     threads := kw_threads kw;
     text_attrs := kw_text_attrs kw;
     meta := kw_meta kw;
     pretokenised := kw_pretokenised kw;
     fields := kw_fields kw |}.

End TerrierIndexer.

Module _BaseIterDictIndexer.

Definition pretokenise (self : indexer) : indexer :=
  {| path := path self; index_dir := index_dir self;
     index_called := index_called self; blocks := blocks self;
     overwrite := overwrite self; type := type self;
     stemmer := None; stopwords := None;
     cleanup_hooks := cleanup_hooks self; threads := threads self;
     text_attrs := ["toks"]; meta := meta self;
     pretokenised := pretokenised self; fields := fields self |}.

Definition __init__ (index_path : string) (kw : kwargs) : result indexer :=
  let self := TerrierIndexer.__init__ index_path kw in
  if pretokenised self then
    if fields self then
      Err (ConfigurationError "pretokenised not supported for fields")
    else if negb (bool_decide (text_attrs self = ["text"])) then
      Err (ConfigurationError "pretokenised ignores text_attrs")
    else Ok (pretokenise self)
  else Ok self.

End _BaseIterDictIndexer.

(** ** The world outside the indexer object *)

(** A reference to a built index: on disk at a location, or in memory. *)
Inductive indexref : Type :=
| IndexRefOf (location : string)
| MemoryIndexRef.

Inductive event : Type :=
| EvBuild (inputs : list (list doc))     (* the engine built from these record sequences *)
| EvLoadIndex (ref : indexref) (for_retrieval : bool)   (* IndexFactory.of *)
| EvHook (id : nat) (for_retrieval : bool).              (* hook(self, index) *)

Record world : Type := {
  files : gset string;        (* paths for which os.path.isfile holds *)
  retrieval_profile : bool;   (* Index.setIndexLoadingProfileAsRetrieval *)
  trace : list event;         (* calls into the engine and the hooks, oldest first *)
  warnings : list warning     (* warnings.warn *)
}.

Definition setIndexLoadingProfileAsRetrieval (b : bool) (w : world) : world :=
  {| files := files w; retrieval_profile := b; trace := trace w;
     warnings := warnings w |}.

Definition log (e : event) (w : world) : world :=
  {| files := files w; retrieval_profile := retrieval_profile w;
     trace := trace w ++ [e]; warnings := warnings w |}.

Definition warn (ws : list warning) (w : world) : world :=
  {| files := files w; retrieval_profile := retrieval_profile w;
     trace := trace w; warnings := warnings w ++ ws |}.

Definition create_file (p : option string) (w : world) : world :=
  {| files := match p with Some f => {[f]} ∪ files w | None => files w end;
     retrieval_profile := retrieval_profile w;
     trace := trace w; warnings := warnings w |}.

(** Modelled from the spec: the build call of the external engine
    ([indexer.index], [indexer.indexDocuments],
    [ParallelIndexer.buildParallel]), which is not Python code.  It builds
    an index from the record sequences it is given and, for an on-disk
    index, leaves its [data.properties] at [self.path], where
    [IndexRef.of(self.index_dir + "/data.properties")] then finds it. *)
Definition engine_build (self : indexer) (inputs : list (list doc)) (w : world) : world :=
  create_file (path self) (log (EvBuild inputs) w).

(** [for hook in self.cleanup_hooks: hook(self, index)] *)
Fixpoint run_hooks (hs : list hook) (w : world) : world * result unit :=
  match hs with
  | [] => (w, Ok tt)
  | h :: rest =>
      let w' := log (EvHook (hook_id h) (retrieval_profile w)) w in
      if hook_raises h then (w', Err (HookError (hook_id h)))
      else run_hooks rest w'
  end.

(** ** Methods of [TerrierIndexer] used by [index] *)

Inductive IndexerClass : Type :=
| BlockSinglePassIndexer | BasicSinglePassIndexer
| BlockIndexer | BasicIndexer | BasicMemoryIndexer.

Inductive MergerClass : Type := BlockStructureMerger | StructureMerger.

#[global] Instance IndexerClass_eq_dec : EqDecision IndexerClass.
Proof. solve_decision. Defined.

Definition checkIndexExists (self : indexer) (w : world) : result unit :=
  match path self with
  | None => Ok tt
  | Some p =>
      if bool_decide (p ∈ files w) && negb (overwrite self)
      then Err (IndexExistsError p)
      else if index_called self then Err AlreadyBuiltError
      else Ok tt
  end.

Definition indexerAndMergerClasses (self : indexer)
  : result (IndexerClass * option MergerClass) :=
  match type self with
  | SINGLEPASS =>
      if blocks self then Ok (BlockSinglePassIndexer, Some BlockStructureMerger)
      else Ok (BasicSinglePassIndexer, Some StructureMerger)
  | CLASSIC =>
      if blocks self then Ok (BlockIndexer, Some BlockStructureMerger)
      else Ok (BasicIndexer, Some StructureMerger)
  | MEMORY =>
      if blocks self then Err MemoryBlocksError
      else Ok (BasicMemoryIndexer, None)
  end.

Definition createIndexer (self : indexer) : result IndexerClass :=
  cls ← indexerAndMergerClasses self;
  Ok cls.1.

(** [_BaseIterDictIndexer._setup].  [self.meta] is a dict here, so the
    branch that gives the keys of a list the length ['512'] is not taken;
    the Terrier properties that are set only reach the engine. *)
Definition _setup (self : indexer) (w : world) : result unit :=
  checkIndexExists self w.

(** [if fields is not None: ...] at the head of both [index] methods. *)
Definition check_fields_arg (fields_arg : option (list string)) : result unit :=
  match fields_arg with
  | None => Ok tt
  | Some fs =>
      if (1 <? length fs)%nat
      then Err (FieldsArgumentError "Use fields and text_attrs constructor kwargs")
      else Err (FieldsArgumentError "Specify the text attribute to index in the constructor.")
  end.

(** A method call: the object and the world after it, and what it returned
    or raised. *)
Record outcome : Type := {
  self_after : indexer;
  world_after : world;
  result_of : result indexref
}.

Definition raised (self : indexer) (w : world) (e : pyerror) : outcome :=
  {| self_after := self; world_after := w; result_of := Err e |}.

Definition py_assert (b : bool) (msg : string) : result unit :=
  if b then Ok tt else Err (PyAssertionError msg).

Notation "'try' x ← c 'on' s , w ; k" :=
  (match c with Err e => raised s w e | Ok x => k end)
  (at level 10, x name, c at level 100, s at level 9, w at level 9,
   k at level 200, only parsing).

(** The tail of a build with an on-disk index, Windows variant: the loading
    profile is switched off, the index loaded, the hooks run, and the
    profile switched back on. *)
Definition hooks_nofifo (self : indexer) (ref : indexref) (w : world) : outcome :=
  if (0 <? length (cleanup_hooks self))%nat then
    let w := setIndexLoadingProfileAsRetrieval false w in
    let w := log (EvLoadIndex ref (retrieval_profile w)) w in
    let '(w, r) := run_hooks (cleanup_hooks self) w in
    try _ ← r on self, w;
    let w := setIndexLoadingProfileAsRetrieval true w in
    {| self_after := self; world_after := w; result_of := Ok ref |}
  else {| self_after := self; world_after := w; result_of := Ok ref |}.

(** The same tail in the fifo variant: the profile is switched back on as
    soon as the index is loaded, before the hooks run. *)
Definition hooks_fifo (self : indexer) (ref : indexref) (w : world) : outcome :=
  if (0 <? length (cleanup_hooks self))%nat then
    let w := setIndexLoadingProfileAsRetrieval false w in
    let w := log (EvLoadIndex ref (retrieval_profile w)) w in
    let w := setIndexLoadingProfileAsRetrieval true w in
    let '(w, r) := run_hooks (cleanup_hooks self) w in
    try _ ← r on self, w;
    {| self_after := self; world_after := w; result_of := Ok ref |}
  else {| self_after := self; world_after := w; result_of := Ok ref |}.

Module _IterDictIndexer_nofifo.

(** What follows the engine call. *)
Definition finish (self : indexer) (w : world) : outcome :=
  if decide (type self = MEMORY) then
    {| self_after := self; world_after := w; result_of := Ok MemoryIndexRef |}
  else
    hooks_nofifo self (IndexRefOf (index_dir self +:+ "/data.properties")) w.

Definition index (self : indexer) (w : world) (it : source)
    (fields_arg : option (list string)) : outcome :=
  try _ ← check_fields_arg fields_arg on self, w;
  try _ ← _setup self w on self, w;
  try _ ← py_assert (threads self =? 1)
            "IterDictIndexer does not support multiple threads on Windows" on self, w;
  try _ ← createIndexer self on self, w;
  if pretokenised self then
    try _ ← py_assert (negb (blocks self)) "pretokenised isnt compatible with blocks"
          on self, w;
    let f := _filter_iterable self it in
    let w := warn (warned f) w in
    try g ← returned f on self, w;
    let self := set_index_called true self in
    match consume g with
    | (_, Some e) => raised self w e
    | (ds, None) => finish self (engine_build self [ds] w)
    end
  else
    let f := _filter_iterable self it in
    let w := warn (warned f) w in
    try g ← returned f on self, w;
    match consume g with
    | (_, Some e) => raised self w e
    | (ds, None) => finish (set_index_called true self) (engine_build self [ds] w)
    end.

End _IterDictIndexer_nofifo.

Module _IterDictIndexer_fifo.

Definition index (ready_at : nat → nat → bool) (self : indexer) (w : world)
    (it : source) (fields_arg : option (list string)) : outcome :=
  try _ ← check_fields_arg fields_arg on self, w;
  try _ ← _setup self w on self, w;
  try cls ← indexerAndMergerClasses self on self, w;
  try _ ← py_assert (0 <? threads self) "threads must be positive" on self, w;
  try _ ← (if decide (cls.1 = BasicMemoryIndexer)
           then py_assert (threads self =? 1)
                  "IterDictIndexer does not support multiple threads for IndexingType.MEMORY"
           else Ok tt) on self, w;
  let w := if 1 <? threads self then warn [NonDeterministicOrderWarning] w else w in
  let nfifos := Z.to_nat (threads self) in
  let f := _filter_iterable self it in
  let w := warn (warned f) w in
  try g ← returned f on self, w;
  (* the writer is a daemon thread: what it raises stays in the thread *)
  let '(wr, _) := _write_fifos ready_at (consume g) nfifos in
  let w := engine_build self (channels wr) w in
  if decide (cls.1 = BasicMemoryIndexer) then
    let '(w, r) := run_hooks (cleanup_hooks self) w in
    try _ ← r on self, w;
    {| self_after := self; world_after := w; result_of := Ok MemoryIndexRef |}
  else
    hooks_fifo self (IndexRefOf (index_dir self +:+ "/data.properties")) w.

End _IterDictIndexer_fifo.

(** [IterDictIndexer] is the fifo variant where [os.mkfifo] exists, the
    other one elsewhere. *)
Definition IterDictIndexer_index (has_mkfifo : bool) (ready_at : nat → nat → bool)
    (self : indexer) (w : world) (it : source) (fields_arg : option (list string))
  : outcome :=
  if has_mkfifo then _IterDictIndexer_fifo.index ready_at self w it fields_arg
  else _IterDictIndexer_nofifo.index self w it fields_arg.

(** * Vocabulary of the statements *)

(** What one input record and its narrowed record have to do with each
    other. *)
Definition narrows (cols : gset string) (obj : pyobj) (r : doc) : Prop :=
  ∃ d, obj = PyDict d ∧ dom r = cols ∧ r ⊆ d.

Definition has_cols (cols : gset string) (obj : pyobj) : Prop :=
  ∃ d, obj = PyDict d ∧ cols ⊆ dom d.


(** The records that a schedule (one conduit per record) sends to conduit
    [i], in the order of the records. *)
Fixpoint assigned (sched : list nat) (ds : list doc) (i : nat) : list doc :=
  match sched, ds with
  | j :: sched', d :: ds' =>
      if decide (j = i) then d :: assigned sched' ds' i else assigned sched' ds' i
  | _, _ => []
  end.


Definition int_valued (items : list (string * scalar)) : Prop :=
  Forall (λ kv, ∃ z, kv.2 = SInt z) items.

(** [items'] has the keys of [items], each with [int] of its value. *)
Definition coerced (items items' : list (string * scalar)) : Prop :=
  Forall2 (λ kv kv', kv'.1 = kv.1 ∧ ∃ z, py_int kv.2 = Ok z ∧ kv'.2 = SInt z)
          items items'.

(** * Example objects *)

Definition str (s : string) : value := VScalar (SStr s).

(** [IterDictIndexer("./index")] *)
Definition default_indexer : indexer := TerrierIndexer.__init__ "./index" defaults.

(** [IterDictIndexer("./index", meta={"docno": 1, "title": 10})] *)
Definition short_docno_indexer : indexer :=
  TerrierIndexer.__init__ "./index"
    {| kw_blocks := false; kw_overwrite := false;
       kw_stemmer := Some porter; kw_stopwords := Some terrier;
       kw_type := CLASSIC; kw_meta := [("docno", 1); ("title", 10)];
       kw_text_attrs := ["text"];
       kw_pretokenised := false; kw_fields := false; kw_threads := 1 |}.

(** [IterDictIndexer("./index", meta={"docno": 20, "title": 3})] *)
Definition short_title_indexer : indexer :=
  TerrierIndexer.__init__ "./index"
    {| kw_blocks := false; kw_overwrite := false;
       kw_stemmer := Some porter; kw_stopwords := Some terrier;
       kw_type := CLASSIC; kw_meta := [("docno", 20); ("title", 3)];
       kw_text_attrs := ["text"];
       kw_pretokenised := false; kw_fields := false; kw_threads := 1 |}.

(** [{"docno": "d1", "text": "a b", "url": "u"}] *)
Definition doc_d1 : doc :=
  list_to_map [("docno", str "d1"); ("text", str "a b"); ("url", str "u")].

(** [{"docno": "d2", "text": "c d"}] *)
Definition doc_d2 : doc :=
  list_to_map [("docno", str "d2"); ("text", str "c d")].

(** [{"docno": "d12", "text": "a b"}] *)
Definition doc_d12 : doc :=
  list_to_map [("docno", str "d12"); ("text", str "a b")].

(** [{"docno": "d3"}]: no text. *)
Definition doc_no_text : doc := list_to_map [("docno", str "d3")].

(** [{"docno": "d4", "text": "e", "title": "a long title"}] *)
Definition doc_titled : doc :=
  list_to_map [("docno", str "d4"); ("text", str "e"); ("title", str "a long title")].

(** [{"docno": "d5", "toks": {"a": 1.5, "b": "2"}}] *)
Definition doc_toks : doc :=
  list_to_map [("docno", str "d5");
               ("toks", VDict [("a", SFloat (FFinite 3 (-1))); ("b", SStr "2")])].


(** Every fifo is always writable. *)
Definition always_ready : nat → nat → bool := λ _ _, true.

(** Only fifo [call mod 2] is writable at a call. *)
Definition alternating : nat → nat → bool := λ call i, (call mod 2 =? i)%nat.

(** [doc_toks] after the coercion: [{"docno": "d5", "toks": {"a": 1, "b": 2}}] *)
Definition doc_toks_cast : doc :=
  list_to_map [("docno", str "d5"); ("toks", VDict [("a", SInt 1); ("b", SInt 2)])].

(** A process in which nothing was built yet. *)
Definition fresh_world : world :=
  {| files := ∅; retrieval_profile := true; trace := []; warnings := [] |}.


(** [IterDictIndexer("./index", type=IndexingType.MEMORY)] *)
Definition memory_indexer : indexer :=
  TerrierIndexer.__init__ "./index"
    {| kw_blocks := false; kw_overwrite := false;
       kw_stemmer := Some porter; kw_stopwords := Some terrier;
       kw_type := MEMORY; kw_meta := [("docno", 20)]; kw_text_attrs := ["text"];
       kw_pretokenised := false; kw_fields := false; kw_threads := 1 |}.

(** [IterDictIndexer("./index", pretokenised=True)] *)
Definition pretokenised_kwargs : kwargs :=
  {| kw_blocks := false; kw_overwrite := false;
     kw_stemmer := Some porter; kw_stopwords := Some terrier;
     kw_type := CLASSIC; kw_meta := [("docno", 20)]; kw_text_attrs := ["text"];
     kw_pretokenised := true; kw_fields := false; kw_threads := 1 |}.

(** [IterDictIndexer("./index", overwrite=True)] *)
Definition overwriting_indexer : indexer :=
  TerrierIndexer.__init__ "./index"
    {| kw_blocks := false; kw_overwrite := true;
       kw_stemmer := Some porter; kw_stopwords := Some terrier;
       kw_type := CLASSIC; kw_meta := [("docno", 20)]; kw_text_attrs := ["text"];
       kw_pretokenised := false; kw_fields := false; kw_threads := 1 |}.

(** The default indexer with two cleanup hooks, the first of which raises. *)
Definition h1 : hook := {| hook_id := 1; hook_raises := true |}.
Definition h2 : hook := {| hook_id := 2; hook_raises := false |}.

Definition hooked_indexer : indexer :=
  {| path := path default_indexer; index_dir := index_dir default_indexer;
     index_called := false; blocks := false; overwrite := false;
     type := CLASSIC; stemmer := Some porter; stopwords := Some terrier;
     cleanup_hooks := [h1; h2]; threads := 1; text_attrs := ["text"];
     meta := [("docno", 20)]; pretokenised := false; fields := false |}.

(** [doc_d1] and [doc_d2] narrowed to [docno] and [text]. *)
Definition doc_d1_narrowed : doc :=
  list_to_map [("docno", str "d1"); ("text", str "a b")].
Definition doc_d2_narrowed : doc :=
  list_to_map [("docno", str "d2"); ("text", str "c d")].

(** * Vocabulary of further statements *)

(** What the loop of [_validate_doc_dict] asks of one configured key. *)
Definition meta_key_ok (d : doc) (kb : string * Z) : Prop :=
  ∃ v n, d !! kb.1 = Some v ∧ py_len v = Ok n ∧
         (kb.1 = "docno" → Z.of_nat n ≤ kb.2).

(** The warning due for one configured key, if any. *)
Definition overlong_warning (d : doc) (kb : string * Z) : list warning :=
  match d !! kb.1 with
  | Some v =>
      match py_len v with
      | Ok n => if kb.2 <? Z.of_nat n then [MetaLengthWarning kb.1 kb.2 n] else []
      | Err _ => []
      end
  | None => []
  end.



(** The reference that [index] returns for an indexer. *)
Definition indexref_of (self : indexer) : indexref :=
  if decide (type self = MEMORY) then MemoryIndexRef
  else IndexRefOf (index_dir self +:+ "/data.properties").

(** The hook calls, as events, when every hook returns. *)
Definition hook_events (for_retrieval : bool) (hs : list hook) : list event :=
  (λ h, EvHook (hook_id h) for_retrieval) <$> hs.


(** The same for the Windows variant. *)
Definition nofifo_hook_trace (self : indexer) : list event :=
  if decide (type self = MEMORY) then []
  else
    match cleanup_hooks self with
    | [] => []
    | hs => EvLoadIndex (indexref_of self) false :: hook_events false hs
    end.

(** The loading profile after a build in which every hook returns. *)
Definition profile_after (self : indexer) (w : world) : bool :=
  if decide (type self = MEMORY) then retrieval_profile w
  else
    match cleanup_hooks self with
    | [] => retrieval_profile w
    | _ => true
    end.


(** The same with one thread. *)
Definition one_hook_indexer : indexer :=
  {| path := path default_indexer; index_dir := index_dir default_indexer;
     index_called := false; blocks := false; overwrite := false;
     type := CLASSIC; stemmer := Some porter; stopwords := Some terrier;
     cleanup_hooks := [h2]; threads := 1; text_attrs := ["text"];
     meta := [("docno", 20)]; pretokenised := false; fields := false |}.

(** The sequence that [_filter_iterable] returns for the stream
    [doc_d1, doc_d2] and the columns [docno] and [text]. *)
Definition gen_d1_d2 : genexpr :=
  {| gen_cols := all_cols default_indexer;
     gen_chained := [PyDict doc_d1];
     gen_source := {| remaining := [PyDict doc_d2]; pulled := 1 |} |}.



(** The indexer that [IterDictIndexer("./index", pretokenised=True)] returns. *)
Definition pretokenised_indexer : indexer :=
  _BaseIterDictIndexer.pretokenise (TerrierIndexer.__init__ "./index" pretokenised_kwargs).

(** The sequence for the stream [doc_toks, doc_d1] and the columns [docno]
    and [toks]. *)
Definition gen_toks_d1 : genexpr :=
  {| gen_cols := all_cols pretokenised_indexer;
     gen_chained := [PyDict doc_toks];
     gen_source := {| remaining := [PyDict doc_d1]; pulled := 1 |} |}.

(** The two errors of [checkIndexExists]. *)
Definition is_guard_error (e : pyerror) : bool :=
  match e with
  | IndexExistsError _ | AlreadyBuiltError => true
  | _ => false
  end.

(** * Indexers of files: [TRECCollectionIndexer] and [FilesIndexer] *)

From Stdlib Require Import DecimalString.

(** ** Builtins *)

(** [str(n)] for an [int]. *)
Definition py_str_int (z : Z) : string := NilZero.string_of_int (Z.to_int z).

(** [s.split(sep)] for a separator of one character. *)
Fixpoint split (sep : ascii) (s : string) : list string :=
  match s with
  | EmptyString => [EmptyString]
  | String a rest =>
      if Ascii.eqb a sep then EmptyString :: split sep rest
      else
        match split sep rest with
        | hd :: tl => String a hd :: tl
        | [] => [String a EmptyString]
        end
  end.

(** [",".join(l)] *)
Definition join (l : list string) : string := String.concat "," l.

(** [d[k]] and [k in d] for a dict kept as its items. *)
Definition dict_get {V : Type} (d : list (string * V)) (k : string) : option V :=
  (list_to_map d : gmap string V) !! k.

(** ** Exceptions of the file indexers *)

Inductive file_error : Type :=
| FilesPathTypeError (tyname : string)
    (* ValueError(f"{files_path}: {type(files_path)} must be a List[str] or str") *)
| EmptyFilesPathError       (* ValueError("list files_path cannot be empty") *)
| FilesPathNotListError     (* ValueError('files_path must be a list') *)
| MetaLengthRequiredError (k : string)
    (* ValueError("You need to specify a meta length for " + k) *)
| Raised (e : pyerror).

Inductive fresult (A : Type) : Type :=
| Returned (a : A)
| Failed (e : file_error).
Arguments Returned {A} a.
Arguments Failed {A} e.

Definition has_returned {A : Type} (r : fresult A) : bool :=
  match r with Returned _ => true | Failed _ => false end.

(** A [result] as an [fresult]. *)
Definition lift {A : Type} (r : result A) : fresult A :=
  match r with Ok a => Returned a | Err e => Failed (Raised e) end.

(** ** Module-level functions *)

Definition type_to_class : gmap string string :=
  list_to_map [("trec", "org.terrier.indexing.TRECCollection");
               ("trecweb", "org.terrier.indexing.TRECWebCollection");
               ("warc", "org.terrier.indexing.WARC10Collection")].

(** [type_to_class[c] if c in type_to_class else c] *)
Definition resolve (coll_type : string) : string :=
  default coll_type (type_to_class !! coll_type).

(** The argument [files_path]: a [str], a [list] of [str], or any other
    object, named by its type and with its [len()] if it has one. *)
Inductive files_arg : Type :=
| PathStr (s : string)
| PathList (l : list string)
| PathOther (tyname : string) (len : option nat).

Definition files_len (files_path : files_arg) : result nat :=
  match files_path with
  | PathStr s => Ok (String.length s)
  | PathList l => Ok (length l)
  | PathOther _ (Some n) => Ok n
  | PathOther _ None => Err PyTypeError
  end.

Definition createAsList (files_path : files_arg) : fresult (list string) :=
  match files_path with
  | PathStr s => Returned [s]
  | PathList l => Returned l
  | PathOther ty _ => Failed (FilesPathTypeError ty)
  end.

(** The collection objects handed to the engine. *)
Inductive collection_obj : Type :=
| LoadedCollection (classes : list string) (paths : list string)
    (* CollectionFactory.loadCollections(classes, ..., [paths, ...]) *)
| SimpleFileCollection (paths : list string).

(** [ApplicationSetup.getProperties().putAll(props)] and
    [ApplicationSetup.setProperty(k, v)] on the properties of the engine. *)
Definition putAll (props app : gmap string string) : gmap string string :=
  props ∪ app.

Definition setProperty (k v : string) (app : gmap string string) : gmap string string :=
  <[k := v]> app.

(** [createCollection(files_path, coll_type, props)].  The factory of the
    engine is taken to return the collection it is asked for. *)
Definition createCollection (files_path : files_arg) (coll_type : string)
    (props : gmap string string) (app : gmap string string)
  : gmap string string * fresult collection_obj :=
  let collectionClzName := resolve coll_type in
  let app := putAll props app in
  match files_len files_path with
  | Err e => (app, Failed (Raised e))
  | Ok n =>
      if (n =? 0)%nat then (app, Failed EmptyFilesPathError)
      else
        match createAsList files_path with
        | Failed e => (app, Failed e)
        | Returned asList =>
            (app, Returned (LoadedCollection (split "," collectionClzName) asList))
        end
  end.

(** [[str(meta[name]) for name in abstract_names]] *)
Fixpoint abstract_lengths (meta : list (string * Z)) (abstract_names : list string)
  : result (list string) :=
  match abstract_names with
  | [] => Ok []
  | name :: rest =>
      match dict_get meta name with
      | None => Err (PyKeyError name)
      | Some le =>
          match abstract_lengths meta rest with
          | Ok ls => Ok (py_str_int le :: ls)
          | Err e => Err e
          end
      end
  end.

Definition _TaggedDocumentSetup (meta : list (string * Z))
    (meta_tags : list (string * string)) (app : gmap string string)
  : gmap string string * fresult unit :=
  let abstract_tags := meta_tags.*2 in
  let abstract_names := meta_tags.*1 in
  match abstract_lengths meta abstract_names with
  | Err e => (app, Failed (Raised e))
  | Ok abstract_lengths =>
      let app := setProperty "TaggedDocument.abstracts" (join abstract_names) app in
      let app := setProperty "TaggedDocument.abstracts.tags" (join abstract_tags) app in
      let app := setProperty "TaggedDocument.abstracts.lengths" (join abstract_lengths) app in
      let app := setProperty "TaggedDocument.abstracts.tags.casesensitive" "false" app in
      (app, Returned tt)
  end.

(** The loop [for k, v in meta_tags.items(): if v == 'ELSE': ... = k]. *)
Definition meta_name_for_abstract (meta_tags : list (string * string)) : option string :=
  foldl (λ acc kv, if decide (kv.2 = "ELSE") then Some kv.1 else acc) None meta_tags.

Definition _FileDocumentSetup (meta : list (string * Z))
    (meta_tags : list (string * string)) (app : gmap string string)
  : gmap string string * fresult unit :=
  match meta_name_for_abstract meta_tags with
  | None => (app, Returned tt)
  | Some name =>
      match dict_get meta name with
      | None => (app, Failed (MetaLengthRequiredError name))
      | Some abstract_length =>
          let app := setProperty "FileDocument.abstract" name app in
          let app := setProperty "FileDocument.abstract.length"
                       (py_str_int abstract_length) app in
          (app, Returned tt)
      end
  end.

(** ** The two classes *)

(** A [TRECCollectionIndexer] or [FilesIndexer]: the fields of
    [TerrierIndexer], with [meta] among them, and those of the subclass
    ([collection] is read by [TRECCollectionIndexer] only). *)
Record file_indexer : Type := {
  base : indexer;
  collection : string;
  meta_tags : list (string * string)
}.

Definition called (self : file_indexer) : file_indexer :=
  {| base := set_index_called true (base self);
     collection := collection self; meta_tags := meta_tags self |}.

(** The engine and its host: the world of the other indexers, the
    properties of [ApplicationSetup], and the collections indexed so far. *)
Record jvm : Type := {
  host : world;
  application_setup : gmap string string;
  indexed : list collection_obj
}.

Definition with_host (w : world) (t : jvm) : jvm :=
  {| host := w; application_setup := application_setup t; indexed := indexed t |}.

Definition with_setup (app : gmap string string) (t : jvm) : jvm :=
  {| host := host t; application_setup := app; indexed := indexed t |}.

(** [index.index(colObj)]: the build call of the engine, as in
    [engine_build], for a collection of files. *)
Definition engine_index (self : indexer) (c : collection_obj) (t : jvm) : jvm :=
  {| host := create_file (path self) (host t);
     application_setup := application_setup t;
     indexed := indexed t ++ [c] |}.

Record file_outcome : Type := {
  indexer_after : file_indexer;
  jvm_after : jvm;
  outcome_of : fresult indexref
}.

Definition failed (self : file_indexer) (t : jvm) (e : file_error) : file_outcome :=
  {| indexer_after := self; jvm_after := t; outcome_of := Failed e |}.

Notation "'attempt' x ← c 'on' s , t ; k" :=
  (match c with Failed e => failed s t e | Returned x => k end)
  (at level 10, x name, c at level 100, s at level 9, t at level 9,
   k at level 200, only parsing).

(** [self.checkIndexExists(); index = self.createIndexer()], the head of
    both [index] methods.  [configured] stands for [self.properties] as
    [indexerAndMergerClasses] completes it (meta keys, term pipeline and
    tokeniser, the last two computed by other modules) and hands it to
    [ApplicationSetup] before it looks at [self.type]. *)
Definition prepare (configured : gmap string string) (self : file_indexer) (t : jvm)
  : jvm * fresult IndexerClass :=
  match checkIndexExists (base self) (host t) with
  | Err e => (t, Failed (Raised e))
  | Ok _ =>
      (with_setup (putAll configured (application_setup t)) t,
       lift (createIndexer (base self)))
  end.

Module TRECCollectionIndexer.

(** [collection] is a [str], as annotated; [meta] is [kw_meta kw]. *)
Definition __init__ (index_path : string) (collection : string)
    (meta_tags : list (string * string)) (kw : kwargs) : file_indexer :=
  {| base := TerrierIndexer.__init__ index_path kw;
     collection := resolve collection;
     meta_tags := meta_tags |}.

Definition index (configured : gmap string string) (self : file_indexer) (t : jvm)
    (files_path : files_arg) : file_outcome :=
  let '(t, r) := prepare configured self t in
  attempt _ ← r on self, t;
  match files_path with
  | PathList _ =>
      let '(app, r) := _TaggedDocumentSetup (meta (base self)) (meta_tags self)
                         (application_setup t) in
      let t := with_setup app t in
      attempt _ ← r on self, t;
      let '(app, r) := createCollection files_path (collection self) ∅
                         (application_setup t) in
      let t := with_setup app t in
      attempt colObj ← r on self, t;
      let t := engine_index (base self) colObj t in
      let self := called self in
      let '(w, r) := run_hooks (cleanup_hooks (base self)) (host t) in
      let t := with_host w t in
      attempt _ ← lift r on self, t;
      {| indexer_after := self; jvm_after := t;
         outcome_of :=
           Returned (if decide (type (base self) = MEMORY) then MemoryIndexRef
                     else IndexRefOf (index_dir (base self) +:+ "/data.properties")) |}
  | _ => failed self t FilesPathNotListError
  end.

End TRECCollectionIndexer.

Module FilesIndexer.

Definition __init__ (index_path : string) (meta_tags : list (string * string))
    (kw : kwargs) : file_indexer :=
  {| base := TerrierIndexer.__init__ index_path kw;
     collection := "";
     meta_tags := meta_tags |}.

(** The lines after the engine call are those of
    [_IterDictIndexer_nofifo.index]. *)
Definition index (configured : gmap string string) (self : file_indexer) (t : jvm)
    (files_path : files_arg) : file_outcome :=
  let '(t, r) := prepare configured self t in
  attempt _ ← r on self, t;
  attempt asList ← createAsList files_path on self, t;
  let '(app, r) := _TaggedDocumentSetup (meta (base self)) (meta_tags self)
                     (application_setup t) in
  let t := with_setup app t in
  attempt _ ← r on self, t;
  let '(app, r) := _FileDocumentSetup (meta (base self)) (meta_tags self)
                     (application_setup t) in
  let t := with_setup app t in
  attempt _ ← r on self, t;
  let t := engine_index (base self) (SimpleFileCollection asList) t in
  let self := called self in
  let o := _IterDictIndexer_nofifo.finish (base self) (host t) in
  {| indexer_after := {| base := self_after o; collection := collection self;
                         meta_tags := meta_tags self |};
     jvm_after := with_host (world_after o) t;
     outcome_of := lift (result_of o) |}.

End FilesIndexer.

(** * Vocabulary of the statements on the file indexers *)

(** Every key of [meta_tags] has a length in [meta]. *)
Definition tags_have_lengths (meta : list (string * Z))
    (meta_tags : list (string * string)) : Prop :=
  Forall (λ name, is_Some (dict_get meta name)) meta_tags.*1.

(** [str(meta[name])] where [name] is a key of [meta]. *)
Definition length_text (meta : list (string * Z)) (name : string) : string :=
  py_str_int (default 0 (dict_get meta name)).

(** The four properties that [_TaggedDocumentSetup] sets. *)
Definition tagged_setup (meta : list (string * Z)) (meta_tags : list (string * string))
    (app : gmap string string) : gmap string string :=
  <["TaggedDocument.abstracts.tags.casesensitive" := "false"]>
    (<["TaggedDocument.abstracts.lengths" := join (length_text meta <$> meta_tags.*1)]>
       (<["TaggedDocument.abstracts.tags" := join meta_tags.*2]>
          (<["TaggedDocument.abstracts" := join meta_tags.*1]> app))).

(** The two checks at the head of both [index] methods pass. *)
Definition head_passes (self : file_indexer) (t : jvm) : Prop :=
  checkIndexExists (base self) (host t) = Ok tt ∧
  (type (base self) = MEMORY → blocks (base self) = false).

(** Whether [index] got as far as the build call of the engine. *)
Definition built (t : jvm) (o : file_outcome) : Prop :=
  ∃ c, indexed (jvm_after o) = indexed t ++ [c].

(** ** Example objects *)

Definition fresh_jvm : jvm :=
  {| host := fresh_world; application_setup := ∅; indexed := [] |}.

(** The keyword arguments [meta={"docno": 20, "text": 4096}]. *)
Definition text_kwargs : kwargs :=
  {| kw_blocks := false; kw_overwrite := false;
     kw_stemmer := Some porter; kw_stopwords := Some terrier;
     kw_type := CLASSIC; kw_meta := [("docno", 20); ("text", 4096)];
     kw_text_attrs := ["text"];
     kw_pretokenised := false; kw_fields := false; kw_threads := 1 |}.

(** [TRECCollectionIndexer("./index", meta={"docno": 20, "text": 4096},
    meta_tags={"text": "ELSE"})] *)
Definition trec_indexer : file_indexer :=
  TRECCollectionIndexer.__init__ "./index" "trec" [("text", "ELSE")] text_kwargs.

(** [FilesIndexer("./index", meta={"docno": 20, "text": 4096},
    meta_tags={"text": "ELSE"})] *)
Definition files_indexer : file_indexer :=
  FilesIndexer.__init__ "./index" [("text", "ELSE")] text_kwargs.

(** The same with [meta_tags={"title": "TITLE", "body": "ELSE"}], neither of
    which has a length in [meta]. *)
Definition untagged_files_indexer : file_indexer :=
  FilesIndexer.__init__ "./index" [("title", "TITLE"); ("body", "ELSE")] text_kwargs.

(** An indexer with the cleanup hooks [hs] registered. *)
Definition with_hooks (hs : list hook) (self : file_indexer) : file_indexer :=
  {| base := set_cleanup_hooks hs (base self);
     collection := collection self; meta_tags := meta_tags self |}.

#[global] Instance tags_have_lengths_dec meta meta_tags :
  Decision (tags_have_lengths meta meta_tags).
Proof. unfold tags_have_lengths. apply _. Defined.



(** * [DFIndexUtils.get_column_lengths] *)

(** A cell of a data frame: [None], or any other value, given by its
    [str()]. *)
Inductive cell : Type :=
| CNone
| CValue (text : string).

#[global] Instance cell_eq_dec : EqDecision cell.
Proof. solve_decision. Defined.

(** [len(str(r)) if r is not None else 0] *)
Definition cell_len (r : cell) : nat :=
  match r with
  | CNone => 0%nat
  | CValue text => String.length text
  end.

(** [Series.max()] of a series of integers: [nan] when it is empty. *)
Definition series_max (l : list nat) : option nat :=
  match l with
  | [] => None
  | n :: rest => Some (foldr Nat.max n rest)
  end.

(** A data frame is its columns in order, each with its name; the names
    are distinct.  The dict returned is kept as its items. *)
Definition get_column_lengths (df : list (string * list cell)) : list (string * nat) :=
  (λ col, (col.1, default 1%nat (series_max (cell_len <$> col.2)))) <$> df.

(** A frame with the columns [docno] and [text] and two rows. *)
Definition two_row_frame : list (string * list cell) :=
  [("docno", [CValue "d1"; CValue "d2"]); ("text", [CValue "a b"; CNone])].
(** * Properties *)

(** ** Projection of one record *)

Section projection.
Implicit Types (d r : doc) (ks : list string) (cols : gset string).

Lemma project_keys_lookup ks d r :
  project_keys ks d = Ok r →
  ∀ f, r !! f = if decide (f ∈ ks) then d !! f else None.
Proof.
  revert r. induction ks as [|k ks IH]; intros r Hr f; cbn [project_keys] in Hr.
  - injection Hr as <-. rewrite lookup_empty. case_decide; [set_solver|done].
  - destruct (d !! k) as [v|] eqn:Hk; [|done].
    destruct (project_keys ks d) as [r'|] eqn:Hks; [|done].
    injection Hr as <-.
    destruct (decide (k = f)) as [->|Hne].
    + rewrite lookup_insert_eq. case_decide; [done|set_solver].
    + rewrite lookup_insert_ne by done. rewrite (IH r' eq_refl f).
      repeat case_decide; set_solver.
Qed.

Lemma project_keys_defined ks d :
  (∀ f, f ∈ ks → is_Some (d !! f)) → ∃ r, project_keys ks d = Ok r.
Proof.
  induction ks as [|k ks IH]; simpl; intros Hall; [by eexists|].
  destruct (Hall k) as [v ->]; [set_solver|].
  destruct IH as [r ->]; [intros f Hf; apply Hall; set_solver|].
  by eexists.
Qed.

Lemma project_keys_raises ks d e :
  project_keys ks d = Err e → ∃ f, e = PyKeyError f ∧ f ∈ ks ∧ d !! f = None.
Proof.
  induction ks as [|k ks IH]; simpl; [done|].
  destruct (d !! k) as [v|] eqn:Hk.
  - destruct (project_keys ks d) as [r'|e'] eqn:Hks; [done|].
    simpl. intros [= <-]. destruct (IH eq_refl) as (f & -> & Hf & Hd).
    exists f. set_solver.
  - intros [= <-]. exists k. set_solver.
Qed.

(** A narrowed record has exactly the wanted keys, with the values of the
    record it comes from. *)
Lemma project_narrows cols d r :
  project cols (PyDict d) = Ok r → dom r = cols ∧ r ⊆ d.
Proof.
  cbn [project]. intros Hr. pose proof (project_keys_lookup _ _ _ Hr) as Hl.
  assert (Hsome : ∀ f, f ∈ cols → is_Some (d !! f)).
  { intros f Hf. destruct (d !! f) as [v|] eqn:Hd; [by eexists|].
    specialize (Hl f). rewrite decide_True in Hl by set_solver.
    clear Hl. exfalso. apply elem_of_elements in Hf.
    revert r Hr Hf. induction (elements cols) as [|k ks IH]; intros r Hr Hf.
    - set_solver.
    - cbn [project_keys] in Hr. destruct (d !! k) as [v|] eqn:Hk; [|done].
      destruct (project_keys ks d) as [r'|] eqn:Hks; [|done].
      apply (IH r' eq_refl). set_solver. }
  split.
  - apply set_eq. intros f. rewrite elem_of_dom, Hl.
    case_decide as Hin; rewrite elem_of_elements in Hin.
    + split; [done|]. intros _. by apply Hsome.
    + split; [by intros [? ?]|done].
  - apply map_subseteq_spec. intros f v. rewrite Hl. by case_decide.
Qed.

Lemma project_defined cols d :
  cols ⊆ dom d → ∃ r, project cols (PyDict d) = Ok r.
Proof.
  intros Hsub. apply project_keys_defined. intros f Hf.
  apply elem_of_dom, Hsub. by apply elem_of_elements.
Qed.

Lemma project_raises cols obj e :
  project cols obj = Err e →
  (∃ ty, obj = PyOther ty ∧ e = PyTypeError) ∨
  (∃ d f, obj = PyDict d ∧ e = PyKeyError f ∧ f ∈ cols ∧ f ∉ dom d).
Proof.
  destruct obj as [d|ty]; cbn [project].
  - intros (f & -> & Hf & Hd)%project_keys_raises. right. exists d, f.
    rewrite elem_of_elements in Hf. by rewrite not_elem_of_dom.
  - intros [= <-]. left. by exists ty.
Qed.

End projection.

(** ** The projected sequence *)

Lemma project_all_complete cols objs :
  Forall (has_cols cols) objs →
  ∃ ds, project_all cols objs = (ds, None) ∧ Forall2 (narrows cols) objs ds.
Proof.
  induction 1 as [|obj objs (d & -> & Hsub) _ (ds & Hds & Hall)].
  - exists []. by split; [|constructor].
  - destruct (project_defined cols d Hsub) as [r Hr].
    exists (r :: ds). cbn [project_all]. rewrite Hr, Hds. split; [done|].
    constructor; [|done]. exists d. split; [done|]. by apply project_narrows.
Qed.

(** Without the assumption: the records before the first one that cannot be
    narrowed are yielded, one for one and in order, then the exception. *)
Lemma project_all_prefix cols objs ds e :
  project_all cols objs = (ds, e) →
  Forall2 (narrows cols) (take (length ds) objs) ds ∧
  match e with
  | None => length ds = length objs
  | Some e' => ∃ obj, objs !! length ds = Some obj ∧ project cols obj = Err e'
  end.
Proof.
  revert ds e. induction objs as [|obj objs IH]; intros ds e; cbn [project_all].
  - intros [= <- <-]. by split; [constructor|].
  - destruct (project cols obj) as [r|e'] eqn:Hr.
    + destruct (project_all cols objs) as [ds' e''] eqn:Hrest.
      intros [= <- <-]. destruct (IH _ _ eq_refl) as [Hpre Hend].
      split.
      * cbn. constructor; [|done]. destruct obj as [d|ty]; [|done].
        exists d. split; [done|]. by apply project_narrows.
      * destruct e''; cbn; [done|]. by f_equal.
    + intros [= <- <-]. split; [constructor|]. exists obj. by split.
Qed.

Lemma spy_chain it :
  let '(first_docs, (hd, it')) := spy it in
  hd ++ remaining it' = remaining it ∧
  first_docs = take 1 (remaining it) ∧
  pulled it' = (pulled it + length first_docs)%nat.
Proof.
  unfold spy. destruct (remaining it) as [|x rest] eqn:Hit; cbn.
  - rewrite Hit. repeat split. lia.
  - repeat split. lia.
Qed.

(** What [_filter_iterable] returns when the first record validates. *)
Lemma filter_iterable_returns self objs :
  match objs with
  | obj :: _ => (_validate_doc_dict self obj).2 = Ok tt
  | [] => True
  end →
  ∃ g, returned (_filter_iterable self (iter objs)) = Ok g ∧
       consume g = project_all (all_cols self) objs.
Proof.
  unfold _filter_iterable, iter, spy, consume. destruct objs as [|obj rest]; cbn.
  - intros _. by eexists.
  - destruct (_validate_doc_dict self obj) as [ws r]. cbn. intros ->. cbn.
    by eexists.
Qed.

Lemma filter_iterable_pulls self objs :
  pulled (after_call (_filter_iterable self (iter objs))) = length (take 1 objs) ∧
  remaining (after_call (_filter_iterable self (iter objs))) = drop 1 objs.
Proof.
  unfold _filter_iterable, iter, spy. destruct objs as [|obj rest]; cbn; [done|].
  destruct (_validate_doc_dict self obj) as [ws r]. cbn. by rewrite drop_0.
Qed.

(** ** Validation of the first record *)

Lemma validate_meta_app pre post d :
  validate_meta (pre ++ post) d =
  match validate_meta pre d with
  | (ws, Ok _) => let '(ws', r) := validate_meta post d in (ws ++ ws', r)
  | (ws, Err e) => (ws, Err e)
  end.
Proof.
  induction pre as [|[k b] pre IH]; cbn [validate_meta app].
  - by destruct (validate_meta post d).
  - destruct (check_meta_key k b d) as [ws [[]|e]]; [|done].
    rewrite IH. destruct (validate_meta pre d) as [ws1 [[]|e]]; [|done].
    destruct (validate_meta post d) as [ws2 r]. by rewrite app_assoc.
Qed.

(** A record that lacks a configured key never passes. *)
Lemma validate_meta_missing m d k :
  k ∈ m.*1 → d !! k = None → ∃ e, (validate_meta m d).2 = Err e.
Proof.
  induction m as [|[k' b] m IH]; cbn [validate_meta fmap list_fmap fst].
  - by intros ?%elem_of_nil.
  - intros Hk Hd. destruct (decide (k' = k)) as [->|Hne].
    + unfold check_meta_key. rewrite Hd. by eexists.
    + assert (Hin : k ∈ m.*1) by set_solver.
      destruct (IH Hin Hd) as [e He].
      destruct (check_meta_key k' b d) as [ws [[]|e']]; [|by eexists].
      destruct (validate_meta m d) as [ws' r]. cbn in *. by eexists.
Qed.

(** No [EvBuild] is logged, and the object is as it was, when the
    validation in [_filter_iterable] raises. *)
Lemma fifo_index_validation_raises ready_at self w it fields_arg e :
  returned (_filter_iterable self it) = Err e →
  let o := _IterDictIndexer_fifo.index ready_at self w it fields_arg in
  is_ok (result_of o) = false ∧ trace (world_after o) = trace w ∧ self_after o = self.
Proof.
  intros Hret. unfold _IterDictIndexer_fifo.index.
  destruct (check_fields_arg fields_arg); [|done].
  destruct (_setup self w); [|done].
  destruct (indexerAndMergerClasses self) as [cls|]; [|done].
  destruct (py_assert (0 <? threads self) _); [|done].
  destruct (if decide (cls.1 = BasicMemoryIndexer) then _ else _); [|done].
  rewrite Hret. cbn. by destruct (1 <? threads self).
Qed.

Lemma nofifo_index_validation_raises self w it fields_arg e :
  returned (_filter_iterable self it) = Err e →
  let o := _IterDictIndexer_nofifo.index self w it fields_arg in
  is_ok (result_of o) = false ∧ trace (world_after o) = trace w ∧ self_after o = self.
Proof.
  intros Hret. unfold _IterDictIndexer_nofifo.index.
  destruct (check_fields_arg fields_arg); [|done].
  destruct (_setup self w); [|done].
  destruct (py_assert (threads self =? 1) _); [|done].
  destruct (createIndexer self); [|done].
  destruct (pretokenised self).
  - destruct (py_assert (negb (blocks self)) _); [|done]. by rewrite Hret.
  - by rewrite Hret.
Qed.


Lemma filter_iterable_cons self obj rest :
  let f := _filter_iterable self (iter (obj :: rest)) in
  warned f = (_validate_doc_dict self obj).1 ∧
  is_ok (returned f) = is_ok (_validate_doc_dict self obj).2 ∧
  ∀ e, (_validate_doc_dict self obj).2 = Err e → returned f = Err e.
Proof.
  unfold _filter_iterable, iter, spy. cbn.
  destruct (_validate_doc_dict self obj) as [ws [[]|e]]; cbn; repeat split; congruence.
Qed.

(** ** The claims about [_filter_iterable] and [_validate_doc_dict] *)

(** C10. On the empty stream [_filter_iterable] validates nothing: it pulls
    no record, emits no warning, raises nothing whatever the configuration
    is, and returns a sequence that yields no record. *)
Theorem filter_iterable_empty_stream (self : indexer) :
  let f := _filter_iterable self (iter []) in
  pulled (after_call f) = 0%nat ∧ warned f = [] ∧
  ∃ g, returned f = Ok g ∧ consume g = ([], None).
Proof. cbn. repeat split. by eexists. Qed.

(** C8, as amended.  When the first record passes validation and every
    record is dict-like and has every key of
    [{'docno'} | set(text_attrs) | set(meta.keys())], the call pulls only
    the peeked record, and the sequence it returns yields, in order and one
    for one, a record whose key set is exactly that union and whose values
    are those of the input record. *)
Theorem filter_iterable_narrows (self : indexer) (objs : list pyobj) :
  match objs with
  | obj :: _ => (_validate_doc_dict self obj).2 = Ok tt
  | [] => True
  end →
  Forall (has_cols (all_cols self)) objs →
  let f := _filter_iterable self (iter objs) in
  pulled (after_call f) = length (take 1 objs) ∧
  ∃ g ds, returned f = Ok g ∧ consume g = (ds, None) ∧
          Forall2 (narrows (all_cols self)) objs ds.
Proof.
  intros Hvalid Hcols f. split; [apply filter_iterable_pulls|].
  destruct (filter_iterable_returns self objs Hvalid) as (g & Hg & Hrun).
  destruct (project_all_complete _ _ Hcols) as (ds & Hds & Hall).
  exists g, ds. repeat split; [done| |done]. by rewrite Hrun.
Qed.

Lemma filter_iterable_narrows_witness :
  (_validate_doc_dict default_indexer (PyDict doc_d1)).2 = Ok tt ∧
  Forall (has_cols (all_cols default_indexer)) [PyDict doc_d1; PyDict doc_d2] ∧
  let f := _filter_iterable default_indexer (iter [PyDict doc_d1; PyDict doc_d2]) in
  pulled (after_call f) = 1%nat ∧
  ∃ g ds, returned f = Ok g ∧ consume g = (ds, None) ∧
          Forall2 (narrows (all_cols default_indexer)) [PyDict doc_d1; PyDict doc_d2] ds.
Proof.
  assert (H1 : (_validate_doc_dict default_indexer (PyDict doc_d1)).2 = Ok tt)
    by reflexivity.
  assert (H2 : Forall (has_cols (all_cols default_indexer))
                 [PyDict doc_d1; PyDict doc_d2]).
  { repeat constructor; eexists; (split; [reflexivity|]);
      apply (bool_decide_unpack _); vm_compute; exact I. }
  split; [exact H1|]. split; [exact H2|].
  exact (filter_iterable_narrows default_indexer
           [PyDict doc_d1; PyDict doc_d2] H1 H2).
Defined.

(** C8 as stated fails.  A record without the text attribute passes the
    validation of the first record, and the sequence raises [KeyError]
    where its narrowed record was due; and a stream whose first record does
    not pass validation gets no sequence. *)
Lemma filter_iterable_narrows_counterexample :
  ((_validate_doc_dict default_indexer (PyDict doc_no_text)).2 = Ok tt ∧
   ∃ g, returned (_filter_iterable default_indexer (iter [PyDict doc_no_text])) = Ok g ∧
        consume g = ([], Some (PyKeyError "text")) ∧
        ¬ Forall2 (narrows (all_cols default_indexer)) [PyDict doc_no_text] (consume g).1) ∧
  (has_cols (all_cols short_docno_indexer) (PyDict doc_titled) ∧
   returned (_filter_iterable short_docno_indexer (iter [PyDict doc_titled]))
   = Err (IdentifierTooLongError "docno" 1 2)).
Proof.
  split.
  - split; [reflexivity|].
    set (g := {| gen_cols := all_cols default_indexer;
                 gen_chained := [PyDict doc_no_text];
                 gen_source := {| remaining := []; pulled := 1 |} |}).
    assert (Hrun : consume g = ([], Some (PyKeyError "text")))
      by (vm_compute; reflexivity).
    exists g. split; [reflexivity|]. split; [exact Hrun|].
    rewrite Hrun. cbn. by intros ?%Forall2_length.
  - split; [|reflexivity]. exists doc_titled. split; [reflexivity|].
    apply (bool_decide_unpack _). vm_compute. exact I.
Qed.

(** C2, as amended.  When the first record is dict-like and lacks a
    configured metadata key [k], the call to [_filter_iterable] itself
    raises, after pulling that one record and nothing else; the build that
    made the call raises without any record reaching the writer or the
    engine.  What is raised is the missing-field error for [k] when the
    keys configured before [k] pass their own checks. *)
Theorem filter_iterable_missing_meta_key
    (self : indexer) (d : doc) (rest : list pyobj) (k : string) :
  k ∈ (meta self).*1 →
  d !! k = None →
  let it := iter (PyDict d :: rest) in
  let f := _filter_iterable self it in
  (∃ e, returned f = Err e) ∧
  pulled (after_call f) = 1%nat ∧ remaining (after_call f) = rest ∧
  (∀ pre b post ws,
     meta self = pre ++ (k, b) :: post →
     validate_meta pre d = (ws, Ok tt) →
     returned f = Err (MissingFieldError k (dom d))) ∧
  (∀ ready_at w fields_arg,
     let o := _IterDictIndexer_fifo.index ready_at self w it fields_arg in
     is_ok (result_of o) = false ∧ trace (world_after o) = trace w) ∧
  (∀ w fields_arg,
     let o := _IterDictIndexer_nofifo.index self w it fields_arg in
     is_ok (result_of o) = false ∧ trace (world_after o) = trace w).
Proof.
  intros Hk Hd it f.
  destruct (validate_meta_missing _ _ _ Hk Hd) as [e He].
  destruct (filter_iterable_cons self (PyDict d) rest) as (_ & _ & Herr).
  assert (Hret : returned f = Err e) by (apply Herr; exact He).
  split; [by exists e|].
  destruct (filter_iterable_pulls self (PyDict d :: rest)) as [Hp Hr].
  split; [exact Hp|]. split; [exact Hr|]. split; [|split].
  - intros pre b post ws Hmeta Hpre. apply Herr.
    unfold _validate_doc_dict. cbn [_is_dict negb items_of].
    rewrite Hmeta, validate_meta_app, Hpre. cbn [validate_meta].
    unfold check_meta_key. by rewrite Hd.
  - intros ready_at w fields_arg.
    by destruct (fifo_index_validation_raises ready_at self w it fields_arg e Hret)
      as (? & ? & _).
  - intros w fields_arg.
    by destruct (nofifo_index_validation_raises self w it fields_arg e Hret)
      as (? & ? & _).
Qed.

Lemma filter_iterable_missing_meta_key_witness :
  "title" ∈ (meta short_title_indexer).*1 ∧
  doc_d1 !! "title" = None ∧
  let it := iter [PyDict doc_d1; PyDict doc_d2] in
  let f := _filter_iterable short_title_indexer it in
  (∃ e, returned f = Err e) ∧
  pulled (after_call f) = 1%nat ∧ remaining (after_call f) = [PyDict doc_d2] ∧
  (∀ pre b post ws,
     meta short_title_indexer = pre ++ ("title", b) :: post →
     validate_meta pre doc_d1 = (ws, Ok tt) →
     returned f = Err (MissingFieldError "title" (dom doc_d1))) ∧
  (∀ ready_at w fields_arg,
     let o := _IterDictIndexer_fifo.index ready_at short_title_indexer w it fields_arg in
     is_ok (result_of o) = false ∧ trace (world_after o) = trace w) ∧
  (∀ w fields_arg,
     let o := _IterDictIndexer_nofifo.index short_title_indexer w it fields_arg in
     is_ok (result_of o) = false ∧ trace (world_after o) = trace w).
Proof.
  assert (H1 : "title" ∈ (meta short_title_indexer).*1)
    by (apply (bool_decide_unpack _); vm_compute; exact I).
  assert (H2 : doc_d1 !! "title" = None) by reflexivity.
  split; [exact H1|]. split; [exact H2|].
  exact (filter_iterable_missing_meta_key short_title_indexer doc_d1
           [PyDict doc_d2] "title" H1 H2).
Defined.

(** C2 as stated fails.  With [meta={"docno": 1, "title": 10}] the first
    record [{"docno": "d12", "text": "a b"}] lacks ["title"], and the call
    raises the error for the over-long ["docno"], which the loop reaches
    first, not the missing-field error.  And a first record that is not
    dict-like, a [str] say, raises the error about its type. *)
Lemma filter_iterable_missing_meta_key_counterexample :
  ("title" ∈ (meta short_docno_indexer).*1 ∧
   doc_d12 !! "title" = None ∧
   let f := _filter_iterable short_docno_indexer (iter [PyDict doc_d12]) in
   returned f = Err (IdentifierTooLongError "docno" 1 3) ∧
   ¬ ∃ k keys, returned f = Err (MissingFieldError k keys)) ∧
  returned (_filter_iterable default_indexer (iter [PyOther "str"]))
  = Err (TypeValidationError "str").
Proof.
  split; [|reflexivity].
  split; [apply (bool_decide_unpack _); vm_compute; exact I|].
  split; [reflexivity|].
  assert (Hret : returned (_filter_iterable short_docno_indexer (iter [PyDict doc_d12]))
                 = Err (IdentifierTooLongError "docno" 1 3)) by reflexivity.
  split; [exact Hret|]. intros (k & keys & Hmiss). rewrite Hret in Hmiss.
  discriminate.
Qed.



(** ** The writer *)

Section writer.
Variable ready_at : nat → nat → bool.




Lemma assigned_nil_r sched i : assigned sched [] i = [].
Proof. by destruct sched. Qed.



(** Whatever happens, a record found in a conduit was there before or is
    the coerced form of a record of the stream. *)
Lemma write_all_provenance w ds w' out r ch :
  write_all ready_at w ds = (w', out) →
  ch ∈ channels w' → r ∈ ch →
  (∃ ch0, ch0 ∈ channels w ∧ r ∈ ch0) ∨ (∃ d, d ∈ ds ∧ cast_toks d = Ok r).
Proof.
  revert w. induction ds as [|d ds IH]; intros w; cbn [write_all].
  - intros [= <- <-] Hch Hr. left. by exists ch.
  - destruct (write_one ready_at w d) as [w1 [[]|e]] eqn:Hone.
    + intros Hall Hch Hr. destruct (IH w1 Hall Hch Hr) as [(ch0 & Hch0 & Hr0)|(d0 & Hd0 & Hc)].
      * unfold write_one in Hone.
        destruct (match ready w with [] => _ | _ :: _ => _ end) as [[|i rd] calls];
          [done|].
        destruct (cast_toks d) as [d'|] eqn:Hcast; [|done].
        injection Hone as <-. cbn in Hch0.
        apply list_elem_of_lookup in Hch0 as [j Hj].
        destruct (decide (i = j)) as [->|Hij].
        -- rewrite list_lookup_alter_eq in Hj.
           destruct (channels w !! j) as [old|] eqn:Hold; [|done].
           injection Hj as <-. apply elem_of_app in Hr0 as [Hr0|Hr0].
           ++ left. exists old. split; [|done]. by eapply list_elem_of_lookup_2.
           ++ apply list_elem_of_singleton in Hr0 as ->. right. exists d.
              split; [left|done].
        -- rewrite list_lookup_alter_ne in Hj by done. left. exists ch0.
           split; [|done]. by eapply list_elem_of_lookup_2.
      * right. exists d0. split; [by right|done].
    + intros [= <- <-] Hch Hr. unfold write_one in Hone.
      destruct (match ready w with [] => _ | _ :: _ => _ end) as [[|i rd] calls].
      * injection Hone as <- _. left. by exists ch.
      * destruct (cast_toks d) as [d'|]; [done|].
        injection Hone as <- _. left. by exists ch.
Qed.

End writer.

Lemma cast_items_coerced items items' :
  cast_items items = Ok items' → coerced items items' ∧ int_valued items'.
Proof.
  revert items'. induction items as [|[k v] items IH]; intros items'; cbn [cast_items].
  - intros [= <-]. split; constructor.
  - destruct (py_int v) as [z|] eqn:Hz; [|done]. cbn.
    destruct (cast_items items) as [rest|]; [|done]. cbn. intros [= <-].
    destruct (IH rest eq_refl) as [Hco Hint]. split.
    + constructor; [|done]. cbn. split; [done|]. by exists z.
    + constructor; [|done]. cbn. by exists z.
Qed.

Lemma cast_toks_coerced d r :
  cast_toks d = Ok r →
  match d !! "toks" with
  | None => r = d
  | Some v => ∃ items items', v = VDict items ∧ r = <["toks" := VDict items']> d ∧
                              coerced items items' ∧ int_valued items'
  end.
Proof.
  unfold cast_toks. destruct (d !! "toks") as [[a|items]|]; [done| |by intros [= <-]].
  destruct (cast_items items) as [items'|] eqn:Hitems; [|done]. cbn.
  intros [= <-]. exists items, items'.
  by destruct (cast_items_coerced _ _ Hitems).
Qed.



(** ** The claims about [_write_fifos] *)




(** C9.  Every record found in a conduit is the coerced form of a record
    of the stream: unchanged when that record has no ['toks'] key;
    otherwise its ['toks'] is a mapping with the same keys in which every
    value is an [int], namely [int] of the value it replaces.  (A record
    whose coercion raises is never written.) *)
Theorem write_fifos_toks_are_ints
    (ready_at : nat → nat → bool) (it : stream) (nfifos : nat)
    (ch : list doc) (r : doc) :
  ch ∈ channels (_write_fifos ready_at it nfifos).1 →
  r ∈ ch →
  ∃ d, d ∈ it.1 ∧ cast_toks d = Ok r ∧
       match d !! "toks" with
       | None => r = d
       | Some v => ∃ items items',
           v = VDict items ∧ r = <["toks" := VDict items']> d ∧
           r !! "toks" = Some (VDict items') ∧
           coerced items items' ∧ int_valued items'
       end.
Proof.
  unfold _write_fifos.
  set (w0 := {| channels := replicate nfifos []; ready := []; selects := 0 |}).
  destruct (write_all ready_at w0 it.1) as [w out] eqn:Hall.
  intros Hch Hr.
  assert (Hch' : ch ∈ channels w) by (by destruct out).
  destruct (write_all_provenance ready_at w0 it.1 w out r ch Hall Hch' Hr)
    as [(ch0 & Hch0 & Hr0)|(d & Hd & Hcast)].
  - cbn in Hch0. apply elem_of_replicate in Hch0 as [-> _].
    by apply elem_of_nil in Hr0.
  - exists d. split; [done|]. split; [done|].
    pose proof (cast_toks_coerced d r Hcast) as Hco.
    destruct (d !! "toks") as [v|]; [|done].
    destruct Hco as (items & items' & -> & -> & Hco & Hint).
    exists items, items'. by rewrite lookup_insert_eq.
Qed.

Lemma write_fifos_toks_are_ints_witness :
  [doc_toks_cast] ∈ channels (_write_fifos always_ready ([doc_toks], None) 1).1 ∧
  doc_toks_cast ∈ [doc_toks_cast] ∧
  ∃ d, d ∈ [doc_toks] ∧ cast_toks d = Ok doc_toks_cast ∧
       match d !! "toks" with
       | None => doc_toks_cast = d
       | Some v => ∃ items items',
           v = VDict items ∧ doc_toks_cast = <["toks" := VDict items']> d ∧
           doc_toks_cast !! "toks" = Some (VDict items') ∧
           coerced items items' ∧ int_valued items'
       end.
Proof.
  assert (H1 : [doc_toks_cast]
               ∈ channels (_write_fifos always_ready ([doc_toks], None) 1).1).
  { replace (channels (_write_fifos always_ready ([doc_toks], None) 1).1)
      with [[doc_toks_cast]] by (vm_compute; reflexivity).
    apply list_elem_of_here. }
  assert (H2 : doc_toks_cast ∈ [doc_toks_cast]) by apply list_elem_of_here.
  split; [exact H1|]. split; [exact H2|].
  exact (write_fifos_toks_are_ints always_ready ([doc_toks], None) 1
           [doc_toks_cast] doc_toks_cast H1 H2).
Defined.

(** ** The claims about construction *)







(** ** Hooks and repeated builds *)

Lemma run_hooks_frame hs w :
  files (run_hooks hs w).1 = files w ∧
  retrieval_profile (run_hooks hs w).1 = retrieval_profile w ∧
  warnings (run_hooks hs w).1 = warnings w.
Proof.
  revert w. induction hs as [|h hs IH]; intros w; cbn [run_hooks]; [done|].
  destruct (hook_raises h); [done|].
  destruct (IH (log (EvHook (hook_id h) (retrieval_profile w)) w)) as (-> & -> & ->).
  done.
Qed.

(** The hooks run in registration order, each seeing the loading profile
    that was set when the loop started, up to and including the first one
    that raises; the ones after it do not run. *)
Lemma run_hooks_trace hs w :
  ∃ ran,
    trace (run_hooks hs w).1
    = trace w ++ ((λ h, EvHook (hook_id h) (retrieval_profile w)) <$> ran) ∧
    match (run_hooks hs w).2 with
    | Ok _ => ran = hs ∧ Forall (λ h, hook_raises h = false) hs
    | Err e => ∃ before h after,
        hs = before ++ h :: after ∧ ran = before ++ [h] ∧
        Forall (λ h, hook_raises h = false) before ∧
        hook_raises h = true ∧ e = HookError (hook_id h)
    end.
Proof.
  revert w. induction hs as [|h hs IH]; intros w; cbn [run_hooks].
  - exists []. cbn. by rewrite app_nil_r.
  - destruct (hook_raises h) eqn:Hh.
    + exists [h]. split; [done|]. cbn. exists [], h, hs. by repeat split.
    + destruct (IH (log (EvHook (hook_id h) (retrieval_profile w)) w))
        as (ran & Htr & Hres).
      exists (h :: ran). split.
      * rewrite Htr. cbn. by rewrite <- app_assoc.
      * destruct (run_hooks hs _).2 as [[]|e].
        -- destruct Hres as [-> Hall]. split; [done|]. by constructor.
        -- destruct Hres as (before & h' & after & -> & -> & Hbefore & Hh' & ->).
           exists (h :: before), h', after. repeat split; try done.
           by constructor.
Qed.

Lemma hooks_nofifo_frame self ref w :
  self_after (hooks_nofifo self ref w) = self ∧
  files (world_after (hooks_nofifo self ref w)) = files w.
Proof.
  unfold hooks_nofifo. destruct (0 <? length (cleanup_hooks self))%nat; [|done].
  set (w1 := log _ (setIndexLoadingProfileAsRetrieval false w)).
  pose proof (run_hooks_frame (cleanup_hooks self) w1) as (Hf & _ & _).
  destruct (run_hooks (cleanup_hooks self) w1) as [w2 [[]|e]]; cbn in *; by rewrite ?Hf.
Qed.

Lemma hooks_fifo_frame self ref w :
  self_after (hooks_fifo self ref w) = self ∧
  files (world_after (hooks_fifo self ref w)) = files w.
Proof.
  unfold hooks_fifo. destruct (0 <? length (cleanup_hooks self))%nat; [|done].
  set (w1 := setIndexLoadingProfileAsRetrieval true _).
  pose proof (run_hooks_frame (cleanup_hooks self) w1) as (Hf & _ & _).
  destruct (run_hooks (cleanup_hooks self) w1) as [w2 [[]|e]]; cbn in *; by rewrite ?Hf.
Qed.

(** A completed build of an on-disk index leaves [data.properties] at
    [self.path]; the Windows variant has also recorded the call. *)
Lemma index_completed has_mkfifo ready_at self w it p :
  path self = Some p →
  let o := IterDictIndexer_index has_mkfifo ready_at self w it None in
  is_ok (result_of o) = true →
  p ∈ files (world_after o) ∧
  path (self_after o) = Some p ∧
  overwrite (self_after o) = overwrite self ∧
  (has_mkfifo = false → index_called (self_after o) = true).
Proof.
  intros Hpath. assert (Hty : type self ≠ MEMORY ∨ type self = MEMORY)
    by (destruct (type self); auto).
  unfold IterDictIndexer_index. destruct has_mkfifo.
  - unfold _IterDictIndexer_fifo.index. cbn [check_fields_arg].
    destruct (_setup self w); [|done].
    destruct (indexerAndMergerClasses self) as [cls|]; [|done].
    destruct (py_assert (0 <? threads self) _); [|done].
    destruct (if decide (cls.1 = BasicMemoryIndexer) then _ else _); [|done].
    destruct (returned (_filter_iterable self it)) as [g|]; [|done].
    destruct (_write_fifos ready_at (consume g) _) as [wr out].
    set (w1 := warn _ _). set (w2 := engine_build self (channels wr) w1).
    assert (Hin : p ∈ files w2).
    { unfold w2, engine_build, create_file. rewrite Hpath. cbn. set_solver. }
    destruct (decide (cls.1 = BasicMemoryIndexer)).
    + pose proof (run_hooks_frame (cleanup_hooks self) w2) as (Hf & _ & _).
      destruct (run_hooks (cleanup_hooks self) w2) as [w3 [[]|e']]; [|done].
      cbn in *. intros _. by rewrite Hf.
    + destruct (hooks_fifo_frame self
                  (IndexRefOf (index_dir self +:+ "/data.properties")) w2)
        as [Hs Hf].
      intros _. rewrite Hs, Hf. done.
  - unfold _IterDictIndexer_nofifo.index. cbn [check_fields_arg].
    destruct (_setup self w); [|done].
    destruct (py_assert (threads self =? 1) _); [|done].
    destruct (createIndexer self); [|done].
    assert (Hfin : ∀ self' w', path self' = Some p → overwrite self' = overwrite self →
              index_called self' = true → p ∈ files w' →
              let o := _IterDictIndexer_nofifo.finish self' w' in
              p ∈ files (world_after o) ∧ path (self_after o) = Some p ∧
              overwrite (self_after o) = overwrite self ∧
              (false = false → index_called (self_after o) = true)).
    { intros self' w' Hp Ho Hc Hin. unfold _IterDictIndexer_nofifo.finish.
      destruct (decide (type self' = MEMORY)); [done|].
      destruct (hooks_nofifo_frame self'
                  (IndexRefOf (index_dir self' +:+ "/data.properties")) w')
        as [Hs Hf].
      cbn zeta. by rewrite Hs, Hf. }
    destruct (pretokenised self).
    + destruct (py_assert (negb (blocks self)) _); [|done].
      destruct (returned (_filter_iterable self it)) as [g|]; [|done].
      destruct (consume g) as [ds [e|]]; [done|]. intros _.
      apply Hfin; try done.
      unfold engine_build, create_file. cbn. rewrite Hpath. set_solver.
    + destruct (returned (_filter_iterable self it)) as [g|]; [|done].
      destruct (consume g) as [ds [e|]]; [done|]. intros _.
      apply Hfin; try done.
      unfold engine_build, create_file. rewrite Hpath. cbn. set_solver.
Qed.

(** C5, as amended.  For an indexer with an on-disk index, in the variant
    that records the call or with [overwrite] off: after a first call of
    [index] that completed, a second call is refused by the guard of
    [checkIndexExists] before anything else happens, so the object and the
    world, with the built index, stay as the first call left them.  What is
    raised is the index-exists error when [overwrite] is off and the
    already-built error when it is on. *)
Theorem second_index_call_refused
    (has_mkfifo : bool) (ready_at ready_at2 : nat → nat → bool)
    (self : indexer) (w : world) (it it2 : source) (p : string) :
  path self = Some p →
  overwrite self = false ∨ has_mkfifo = false →
  let o1 := IterDictIndexer_index has_mkfifo ready_at self w it None in
  is_ok (result_of o1) = true →
  let o2 := IterDictIndexer_index has_mkfifo ready_at2
              (self_after o1) (world_after o1) it2 None in
  result_of o2 = Err (if overwrite self then AlreadyBuiltError else IndexExistsError p) ∧
  self_after o2 = self_after o1 ∧
  world_after o2 = world_after o1.
Proof.
  intros Hpath Hcase o1 Hok o2.
  destruct (index_completed has_mkfifo ready_at self w it p Hpath Hok)
    as (Hfile & Hpath1 & Hover1 & Hcalled).
  fold o1 in Hfile, Hpath1, Hover1, Hcalled.
  assert (Hguard : checkIndexExists (self_after o1) (world_after o1)
            = Err (if overwrite self then AlreadyBuiltError else IndexExistsError p)).
  { unfold checkIndexExists. rewrite Hpath1, Hover1.
    rewrite bool_decide_eq_true_2 by done.
    destruct (overwrite self); [|done]. cbn.
    destruct Hcase as [?|Hwin]; [done|]. by rewrite (Hcalled Hwin). }
  unfold o2, IterDictIndexer_index, _IterDictIndexer_fifo.index,
    _IterDictIndexer_nofifo.index, _setup.
  cbn [check_fields_arg]. rewrite Hguard. by destruct has_mkfifo.
Qed.

Lemma second_index_call_refused_witness :
  path default_indexer = Some "./index/data.properties" ∧
  (overwrite default_indexer = false ∨ false = false) ∧
  let o1 := IterDictIndexer_index false always_ready default_indexer fresh_world
              (iter [PyDict doc_d1; PyDict doc_d2]) None in
  is_ok (result_of o1) = true ∧
  let o2 := IterDictIndexer_index false always_ready
              (self_after o1) (world_after o1) (iter [PyDict doc_d1]) None in
  result_of o2 = Err (if overwrite default_indexer then AlreadyBuiltError
                      else IndexExistsError "./index/data.properties") ∧
  self_after o2 = self_after o1 ∧
  world_after o2 = world_after o1.
Proof.
  assert (H1 : path default_indexer = Some "./index/data.properties") by reflexivity.
  assert (H2 : overwrite default_indexer = false ∨ false = false) by (left; reflexivity).
  assert (H3 : is_ok (result_of
                 (IterDictIndexer_index false always_ready default_indexer fresh_world
                    (iter [PyDict doc_d1; PyDict doc_d2]) None)) = true)
    by (vm_compute; reflexivity).
  split; [exact H1|]. split; [exact H2|]. split; [exact H3|].
  exact (second_index_call_refused false always_ready always_ready default_indexer
           fresh_world (iter [PyDict doc_d1; PyDict doc_d2]) (iter [PyDict doc_d1])
           "./index/data.properties" H1 H2 H3).
Defined.

(** C5 as stated fails.  An indexer of type [MEMORY] has no path, the
    guard returns at once, and a second call of [index] builds again.  And
    with a path and [overwrite] off, what refuses the second call is the
    index-exists error, which is tested first. *)
Lemma second_index_call_refused_counterexample :
  (let o1 := IterDictIndexer_index false always_ready memory_indexer fresh_world
               (iter [PyDict doc_d1]) None in
   let o2 := IterDictIndexer_index false always_ready
               (self_after o1) (world_after o1) (iter [PyDict doc_d2]) None in
   result_of o1 = Ok MemoryIndexRef ∧
   index_called (self_after o1) = true ∧
   result_of o2 = Ok MemoryIndexRef ∧
   trace (world_after o2) = [EvBuild [[doc_d1_narrowed]]; EvBuild [[doc_d2_narrowed]]]) ∧
  (let o1 := IterDictIndexer_index false always_ready default_indexer fresh_world
               (iter [PyDict doc_d1]) None in
   let o2 := IterDictIndexer_index false always_ready
               (self_after o1) (world_after o1) (iter [PyDict doc_d2]) None in
   result_of o1 = Ok (IndexRefOf "./index/data.properties") ∧
   index_called (self_after o1) = true ∧
   result_of o2 = Err (IndexExistsError "./index/data.properties")).
Proof. vm_compute. repeat split. Qed.

(** The fifo variant never sets [index_called]: with [overwrite] on, its
    guard lets a second call through. *)
Lemma fifo_index_does_not_record_call :
  let o1 := IterDictIndexer_index true always_ready overwriting_indexer fresh_world
              (iter [PyDict doc_d1]) None in
  let o2 := IterDictIndexer_index true always_ready
              (self_after o1) (world_after o1) (iter [PyDict doc_d2]) None in
  is_ok (result_of o1) = true ∧
  index_called (self_after o1) = false ∧
  is_ok (result_of o2) = true.
Proof. vm_compute. repeat split. Qed.

(** With a hook that raises, the Windows variant leaves the loading profile
    switched off; the fifo variant has switched it back on before the hooks
    run. *)
Lemma hooks_nofifo_raising self ref w :
  Exists (λ h, hook_raises h = true) (cleanup_hooks self) →
  let o := hooks_nofifo self ref w in
  is_ok (result_of o) = false ∧ retrieval_profile (world_after o) = false.
Proof.
  intros Hex. unfold hooks_nofifo.
  destruct (cleanup_hooks self) as [|h hs] eqn:Hhs; [by apply Exists_nil in Hex|].
  cbn [length Nat.ltb Nat.leb]. set (w1 := log _ (setIndexLoadingProfileAsRetrieval false w)).
  pose proof (run_hooks_frame (h :: hs) w1) as (_ & Hp & _).
  destruct (run_hooks_trace (h :: hs) w1) as (ran & _ & Hres).
  destruct (run_hooks (h :: hs) w1) as [w2 [[]|e]]; cbn in *.
  - destruct Hres as [_ Hall]. exfalso.
    apply Exists_exists in Hex as (h' & Hin & Hr).
    rewrite Forall_forall in Hall. specialize (Hall h' Hin). congruence.
  - done.
Qed.

Lemma hooks_nofifo_returning self ref w :
  cleanup_hooks self ≠ [] →
  Forall (λ h, hook_raises h = false) (cleanup_hooks self) →
  let o := hooks_nofifo self ref w in
  result_of o = Ok ref ∧ retrieval_profile (world_after o) = true.
Proof.
  intros Hne Hall. unfold hooks_nofifo.
  destruct (cleanup_hooks self) as [|h hs] eqn:Hhs; [done|].
  cbn [length Nat.ltb Nat.leb]. set (w1 := log _ (setIndexLoadingProfileAsRetrieval false w)).
  destruct (run_hooks_trace (h :: hs) w1) as (ran & _ & Hres).
  destruct (run_hooks (h :: hs) w1) as [w2 [[]|e]]; cbn in *; [done|].
  destruct Hres as (before & h' & after & Heq & _ & _ & Hr & _). exfalso.
  rewrite Forall_forall in Hall. rewrite Heq in Hall.
  specialize (Hall h'). rewrite Hall in Hr; [done|]. set_solver.
Qed.

Lemma hooks_fifo_profile self ref w :
  cleanup_hooks self ≠ [] →
  retrieval_profile (world_after (hooks_fifo self ref w)) = true.
Proof.
  intros Hne. unfold hooks_fifo.
  destruct (cleanup_hooks self) as [|h hs] eqn:Hhs; [done|].
  cbn [length Nat.ltb Nat.leb]. set (w1 := setIndexLoadingProfileAsRetrieval true _).
  pose proof (run_hooks_frame (h :: hs) w1) as (_ & Hp & _).
  destruct (run_hooks (h :: hs) w1) as [w2 [[]|e]]; cbn in *; by rewrite Hp.
Qed.

Lemma run_hooks_first_raising before h after w :
  Forall (λ h', hook_raises h' = false) before →
  hook_raises h = true →
  (run_hooks (before ++ h :: after) w).2 = Err (HookError (hook_id h)) ∧
  trace (run_hooks (before ++ h :: after) w).1
  = trace w ++ ((λ h', EvHook (hook_id h') (retrieval_profile w)) <$> before ++ [h]).
Proof.
  intros Hbefore Hh. revert w.
  induction Hbefore as [|h' before Hh' _ IH]; intros w; cbn [app run_hooks].
  - by rewrite Hh.
  - rewrite Hh'. destruct (IH (log (EvHook (hook_id h') (retrieval_profile w)) w))
      as [-> ->].
    split; [done|]. cbn. by rewrite <- app_assoc.
Qed.

(** C4, at the failing inputs.  The Windows variant with an on-disk index
    and a hook that raises, on any stream and in any world in which the
    build itself goes through (the same call without hooks returns): the
    hooks before the raising one run in registration order with the loading
    profile off, the raising one runs, the ones after it do not, and the
    exception reaches the caller; but the loading profile is left off. *)
Theorem nofifo_hook_failure_leaves_profile_off
    (self : indexer) (w : world) (it : source) (before after : list hook) (h : hook) :
  type self ≠ MEMORY →
  cleanup_hooks self = before ++ h :: after →
  Forall (λ h', hook_raises h' = false) before →
  hook_raises h = true →
  let o0 := _IterDictIndexer_nofifo.index (set_cleanup_hooks [] self) w it None in
  is_ok (result_of o0) = true →
  let o := _IterDictIndexer_nofifo.index self w it None in
  result_of o = Err (HookError (hook_id h)) ∧
  trace (world_after o)
  = trace (world_after o0)
    ++ EvLoadIndex (IndexRefOf (index_dir self +:+ "/data.properties")) false
    :: ((λ h', EvHook (hook_id h') false) <$> before ++ [h]) ∧
  retrieval_profile (world_after o) = false.
Proof.
  intros Hty Hhooks Hbefore Hh o0 Hok o. subst o o0.
  unfold _IterDictIndexer_nofifo.index in *. cbn [check_fields_arg] in *.
  change (_setup (set_cleanup_hooks [] self) w) with (_setup self w) in *.
  change (threads (set_cleanup_hooks [] self)) with (threads self) in *.
  change (createIndexer (set_cleanup_hooks [] self)) with (createIndexer self) in *.
  change (pretokenised (set_cleanup_hooks [] self)) with (pretokenised self) in *.
  change (blocks (set_cleanup_hooks [] self)) with (blocks self) in *.
  change (_filter_iterable (set_cleanup_hooks [] self) it)
    with (_filter_iterable self it) in *.
  destruct (_setup self w); [|done].
  destruct (py_assert (threads self =? 1) _); [|done].
  destruct (createIndexer self); [|done].
  assert (Hfin : ∀ b ds w1,
    let s0 := set_index_called b (set_cleanup_hooks [] self) in
    let s := set_index_called b self in
    let t0 := _IterDictIndexer_nofifo.finish s0 (engine_build s0 [ds] w1) in
    let t := _IterDictIndexer_nofifo.finish s (engine_build s [ds] w1) in
    result_of t = Err (HookError (hook_id h)) ∧
    trace (world_after t)
    = trace (world_after t0)
      ++ EvLoadIndex (IndexRefOf (index_dir self +:+ "/data.properties")) false
      :: ((λ h', EvHook (hook_id h') false) <$> before ++ [h]) ∧
    retrieval_profile (world_after t) = false).
  { intros b ds w1 s0 s t0 t. subst t t0.
    unfold _IterDictIndexer_nofifo.finish, hooks_nofifo.
    change (type s0) with (type self). change (type s) with (type self).
    rewrite !decide_False by done.
    change (cleanup_hooks s0) with (@nil hook).
    change (cleanup_hooks s) with (cleanup_hooks self). rewrite Hhooks.
    change (engine_build s0 [ds] w1) with (engine_build s [ds] w1).
    assert (Hlen : (0 <? length (before ++ h :: after))%nat = true).
    { apply Nat.ltb_lt. rewrite length_app. cbn. lia. }
    rewrite Hlen. cbn [length Nat.ltb Nat.leb].
    set (w2 := log _ (setIndexLoadingProfileAsRetrieval false (engine_build s [ds] w1))).
    destruct (run_hooks_first_raising before h after w2 Hbefore Hh) as [Hres Htr].
    pose proof (run_hooks_frame (before ++ h :: after) w2) as (_ & Hp & _).
    destruct (run_hooks (before ++ h :: after) w2) as [w3 r]. cbn in Hres, Htr, Hp.
    subst r. cbn. split; [done|]. split; [|done].
    rewrite Htr. cbn. by rewrite <- app_assoc. }
  destruct (pretokenised self).
  - destruct (py_assert (negb (blocks self)) _); [|done].
    destruct (returned (_filter_iterable self it)) as [g|]; [|done].
    destruct (consume g) as [ds [e|]]; [done|].
    apply (Hfin true).
  - destruct (returned (_filter_iterable self it)) as [g|]; [|done].
    destruct (consume g) as [ds [e|]]; [done|].
    specialize (Hfin true ds (warn (warned (_filter_iterable self it)) w)).
    cbn zeta in Hfin.
    change (engine_build (set_index_called true (set_cleanup_hooks [] self)))
      with (engine_build (set_cleanup_hooks [] self)) in Hfin.
    change (engine_build (set_index_called true self))
      with (engine_build self) in Hfin.
    exact Hfin.
Qed.

Lemma nofifo_hook_failure_leaves_profile_off_witness :
  type hooked_indexer ≠ MEMORY ∧
  cleanup_hooks hooked_indexer = [] ++ h1 :: [h2] ∧
  Forall (λ h', hook_raises h' = false) [] ∧
  hook_raises h1 = true ∧
  let o0 := _IterDictIndexer_nofifo.index (set_cleanup_hooks [] hooked_indexer)
              fresh_world (iter [PyDict doc_d1]) None in
  is_ok (result_of o0) = true ∧
  let o := _IterDictIndexer_nofifo.index hooked_indexer fresh_world
             (iter [PyDict doc_d1]) None in
  result_of o = Err (HookError (hook_id h1)) ∧
  trace (world_after o)
  = trace (world_after o0)
    ++ EvLoadIndex (IndexRefOf (index_dir hooked_indexer +:+ "/data.properties")) false
    :: ((λ h', EvHook (hook_id h') false) <$> [] ++ [h1]) ∧
  retrieval_profile (world_after o) = false.
Proof.
  assert (H1 : type hooked_indexer ≠ MEMORY) by discriminate.
  assert (H2 : cleanup_hooks hooked_indexer = [] ++ h1 :: [h2]) by reflexivity.
  assert (H3 : Forall (λ h', hook_raises h' = false) []) by constructor.
  assert (H4 : hook_raises h1 = true) by reflexivity.
  assert (H5 : is_ok (result_of
                 (_IterDictIndexer_nofifo.index (set_cleanup_hooks [] hooked_indexer)
                    fresh_world (iter [PyDict doc_d1]) None)) = true)
    by (vm_compute; reflexivity).
  split; [exact H1|]. split; [exact H2|]. split; [exact H3|]. split; [exact H4|].
  split; [exact H5|].
  exact (nofifo_hook_failure_leaves_profile_off hooked_indexer fresh_world
           (iter [PyDict doc_d1]) [] [h2] h1 H1 H2 H3 H4 H5).
Defined.

(** The run at [hooked_indexer], in both variants: in the fifo variant the
    profile is back on when the hooks run, and on at the end. *)
Lemma hook_failure_in_both_variants :
  let o := _IterDictIndexer_nofifo.index hooked_indexer fresh_world
             (iter [PyDict doc_d1]) None in
  let o' := _IterDictIndexer_fifo.index always_ready hooked_indexer fresh_world
              (iter [PyDict doc_d1]) None in
  result_of o = Err (HookError 1) ∧
  trace (world_after o)
  = [EvBuild [[doc_d1_narrowed]];
     EvLoadIndex (IndexRefOf "./index/data.properties") false;
     EvHook 1 false] ∧
  retrieval_profile fresh_world = true ∧
  retrieval_profile (world_after o) = false ∧
  result_of o' = Err (HookError 1) ∧
  trace (world_after o')
  = [EvBuild [[doc_d1_narrowed]];
     EvLoadIndex (IndexRefOf "./index/data.properties") false;
     EvHook 1 true] ∧
  retrieval_profile (world_after o') = true.
Proof. vm_compute. repeat split. Qed.

(** * Further properties *)

(** ** Validation and projection *)

(** X1.  The first record of a stream, when dict-like, passes
    [_validate_doc_dict] exactly when every configured metadata key is
    present with a value that has a length, and the value of ['docno'], if
    configured, is within its bound; the warnings then emitted are those of
    the over-long other fields, in the order of [self.meta]. *)
Theorem validate_doc_dict_passes_iff (self : indexer) (d : doc) :
  ((_validate_doc_dict self (PyDict d)).2 = Ok tt ↔
   Forall (meta_key_ok d) (meta self)) ∧
  ((_validate_doc_dict self (PyDict d)).2 = Ok tt →
   (_validate_doc_dict self (PyDict d)).1
   = concat (overlong_warning d <$> meta self)).
Proof.
  unfold _validate_doc_dict. cbn [_is_dict negb items_of].
  induction (meta self) as [|[k b] m [IHiff IHw]]; cbn [validate_meta].
  - split; [|done]. split; [constructor|done].
  - unfold check_meta_key, overlong_warning at 1, meta_key_ok at 1.
    cbn [fst snd fmap list_fmap concat].
    destruct (d !! k) as [v|] eqn:Hk.
    2:{ split; [|done]. split; [done|].
        intros [(v & n & Hv & _) _]%Forall_cons. cbn in Hv. congruence. }
    destruct (py_len v) as [n|e] eqn:Hn.
    2:{ split; [|done]. split; [done|].
        intros [(v' & n & Hv & Hn' & _) _]%Forall_cons. cbn in Hv. congruence. }
    destruct (Z.ltb_spec b (Z.of_nat n)) as [Hlt|Hge].
    + destruct (String.eqb_spec k "docno") as [->|Hne].
      * split; [|done]. split; [done|].
        intros [(v' & n' & Hv & Hn' & Hb) _]%Forall_cons. cbn in *.
        assert (v' = v) as -> by congruence.
        assert (n' = n) as -> by congruence. specialize (Hb eq_refl). lia.
      * destruct (validate_meta m d) as [ws r] eqn:Hrest. cbn in *. split.
        -- rewrite IHiff. split.
           ++ intros Hall. constructor; [|done]. exists v, n. by repeat split.
           ++ by intros [_ ?]%Forall_cons.
        -- intros Hr. by rewrite (IHw Hr).
    + destruct (validate_meta m d) as [ws r] eqn:Hrest. cbn in *. split.
      * rewrite IHiff. split.
        -- intros Hall. constructor; [|done]. exists v, n. repeat split; try done.
        -- by intros [_ ?]%Forall_cons.
      * intros Hr. by rewrite (IHw Hr).
Qed.



Lemma project_keys_agree ks d1 d2 :
  (∀ f, f ∈ ks → d1 !! f = d2 !! f) → project_keys ks d1 = project_keys ks d2.
Proof.
  induction ks as [|k ks IH]; intros Hagree; cbn [project_keys]; [done|].
  rewrite <- (Hagree k) by set_solver. rewrite IH; [done|].
  intros f Hf. apply Hagree. set_solver.
Qed.

(** X3.  Narrowing looks at the wanted columns and nothing else: two records
    that agree on the wanted columns are narrowed alike (with the same
    record, or the same [KeyError]), and narrowing a narrowed record gives
    it back. *)
Theorem project_wanted_columns_only (cols : gset string) (d1 d2 r : doc) :
  ((∀ f, f ∈ cols → d1 !! f = d2 !! f) →
   project cols (PyDict d1) = project cols (PyDict d2)) ∧
  (project cols (PyDict d1) = Ok r → project cols (PyDict r) = Ok r).
Proof.
  split.
  - intros Hagree. cbn [project]. apply project_keys_agree.
    intros f Hf. apply Hagree. by apply elem_of_elements.
  - intros Hr. destruct (project_narrows _ _ _ Hr) as [Hdom Hsub].
    assert (Hagain : cols ⊆ dom r) by (by rewrite Hdom).
    destruct (project_defined cols r Hagain) as [r' Hr'].
    rewrite Hr'. f_equal. apply map_eq. intros f.
    cbn [project] in Hr'. rewrite (project_keys_lookup _ _ _ Hr' f).
    case_decide as Hin; [done|]. rewrite elem_of_elements in Hin.
    symmetry. apply not_elem_of_dom. by rewrite Hdom.
Qed.

(** ** The writer, beyond the claims *)




Lemma write_one_selects ready_at w d :
  let w' := (write_one ready_at w d).1 in
  (selects w ≤ selects w' ≤ S (selects w))%nat ∧
  length (channels w') = length (channels w) ∧
  ((length (channels w) ≤ 1)%nat → selects w' = selects w).
Proof.
  unfold write_one. destruct (ready w) as [|i rd].
  - destruct (1 <? length (channels w))%nat eqn:Hmany.
    + apply Nat.ltb_lt in Hmany.
      destruct (select ready_at (selects w) (length (channels w))) as [|i rd];
        [cbn; lia|].
      destruct (cast_toks d); cbn; rewrite ?length_alter; lia.
    + destruct (seq 0 (length (channels w))) as [|i rd]; [cbn; lia|].
      destruct (cast_toks d); cbn; rewrite ?length_alter; lia.
  - destruct (cast_toks d); cbn; rewrite ?length_alter; lia.
Qed.

Lemma write_all_selects ready_at w ds :
  let w' := (write_all ready_at w ds).1 in
  (selects w' ≤ selects w + length ds)%nat ∧
  ((length (channels w) ≤ 1)%nat → selects w' = selects w).
Proof.
  revert w. induction ds as [|d ds IH]; intros w; cbn [write_all].
  - cbn. lia.
  - pose proof (write_one_selects ready_at w d) as (Hs & Hlen & Hone).
    destruct (write_one ready_at w d) as [w1 [[]|e]]; cbn in *.
    + destruct (IH w1) as [Hle Hsame]. rewrite Hlen in Hsame. split; [lia|].
      intros Hn. rewrite (Hsame Hn). by apply Hone.
    + split; [lia|done].
Qed.

(** X5.  [select] is called at most once per record, and with a single fifo
    (or none) it is never called, whatever the stream and whether or not the
    writer ends with an exception. *)
Theorem write_fifos_select_calls
    (ready_at : nat → nat → bool) (it : stream) (nfifos : nat) :
  let w := (_write_fifos ready_at it nfifos).1 in
  (selects w ≤ length it.1)%nat ∧
  ((nfifos ≤ 1)%nat → selects w = 0%nat).
Proof.
  unfold _write_fifos.
  set (w0 := {| channels := replicate nfifos []; ready := []; selects := 0 |}).
  pose proof (write_all_selects ready_at w0 it.1) as [Hle Hsame].
  cbn [channels selects w0] in Hle, Hsame. rewrite length_replicate in Hsame.
  destruct (write_all ready_at w0 it.1) as [w [e|]]; cbn in *; split; try lia; done.
Qed.






Lemma cast_items_int_valued items :
  int_valued items → cast_items items = Ok items.
Proof.
  induction 1 as [|[k v] items [z Hz] _ IH]; cbn [cast_items]; [done|].
  cbn in Hz. subst v. cbn. by rewrite IH.
Qed.

(** X7.  Coercing the ['toks'] of a record changes nothing else: the
    coerced record has the same keys, the same values under every other key,
    and coercing it again gives it back. *)
Theorem cast_toks_idempotent (d r : doc) :
  cast_toks d = Ok r →
  cast_toks r = Ok r ∧
  dom r = dom d ∧
  ∀ f, f ≠ "toks" → r !! f = d !! f.
Proof.
  intros Hcast. pose proof (cast_toks_coerced d r Hcast) as Hco.
  destruct (d !! "toks") as [v|] eqn:Htoks.
  - destruct Hco as (items & items' & -> & -> & _ & Hint). split; [|split].
    + unfold cast_toks. rewrite lookup_insert_eq.
      rewrite (cast_items_int_valued _ Hint). cbn. by rewrite insert_insert_eq.
    + rewrite dom_insert_L. apply elem_of_dom_2 in Htoks. set_solver.
    + intros f Hf. by rewrite lookup_insert_ne.
  - subst r. by repeat split.
Qed.

Lemma cast_toks_idempotent_witness :
  cast_toks doc_toks = Ok doc_toks_cast ∧
  cast_toks doc_toks_cast = Ok doc_toks_cast ∧
  dom doc_toks_cast = dom doc_toks ∧
  ∀ f, f ≠ "toks" → doc_toks_cast !! f = doc_toks !! f.
Proof.
  assert (H1 : cast_toks doc_toks = Ok doc_toks_cast) by (vm_compute; reflexivity).
  split; [exact H1|].
  exact (cast_toks_idempotent doc_toks doc_toks_cast H1).
Defined.

(** ** Builds that complete *)



Lemma run_hooks_all_return hs w :
  Forall (λ h, hook_raises h = false) hs →
  (run_hooks hs w).2 = Ok tt ∧
  trace (run_hooks hs w).1 = trace w ++ hook_events (retrieval_profile w) hs.
Proof.
  intros Hall. revert w. induction Hall as [|h hs Hh _ IH]; intros w; cbn [run_hooks].
  - cbn. by rewrite app_nil_r.
  - rewrite Hh. destruct (IH (log (EvHook (hook_id h) (retrieval_profile w)) w))
      as [-> ->].
    split; [done|]. cbn. by rewrite <- app_assoc.
Qed.


Lemma indexer_classes_defined self :
  (type self = MEMORY → blocks self = false) →
  ∃ cls, indexerAndMergerClasses self = Ok cls.
Proof.
  unfold indexerAndMergerClasses. intros Hmem.
  destruct (type self); destruct (blocks self) eqn:Hb; try (by eexists).
  by specialize (Hmem eq_refl).
Qed.






(** X9.  The Windows variant, when its guards pass, the first record
    validates, the sequence runs to its end and no hook raises: [index]
    returns the reference and sets [index_called]; the engine is given one
    sequence, the narrowed records as the sequence yields them; for an
    on-disk index with hooks the index is then loaded with the loading
    profile off, the hooks run in registration order, and the profile is
    switched on; for a memory index no hook runs. *)
Theorem nofifo_index_completes
    (self : indexer) (w : world) (it : source) (g : genexpr) (ds : list doc) :
  checkIndexExists self w = Ok tt →
  threads self = 1 →
  (type self = MEMORY → blocks self = false) →
  (pretokenised self = true → blocks self = false) →
  returned (_filter_iterable self it) = Ok g →
  consume g = (ds, None) →
  Forall (λ h, hook_raises h = false) (cleanup_hooks self) →
  let o := _IterDictIndexer_nofifo.index self w it None in
  result_of o = Ok (indexref_of self) ∧
  self_after o = set_index_called true self ∧
  trace (world_after o) = trace w ++ EvBuild [ds] :: nofifo_hook_trace self ∧
  retrieval_profile (world_after o) = profile_after self w ∧
  warnings (world_after o) = warnings w ++ warned (_filter_iterable self it).
Proof.
  intros Hguard Hth Hmem Hpre Hret Hrun Hhooks o.
  destruct (indexer_classes_defined self Hmem) as [cls Hcls].
  assert (Hfin : ∀ b,
    let s := set_index_called true self in
    let s' := set_index_called b self in
    let t := _IterDictIndexer_nofifo.finish s
               (engine_build s' [ds] (warn (warned (_filter_iterable self it)) w)) in
    result_of t = Ok (indexref_of self) ∧
    self_after t = s ∧
    trace (world_after t) = trace w ++ EvBuild [ds] :: nofifo_hook_trace self ∧
    retrieval_profile (world_after t) = profile_after self w ∧
    warnings (world_after t) = warnings w ++ warned (_filter_iterable self it)).
  { intros b s s' t. subst t.
    set (w2 := engine_build s' [ds] (warn (warned (_filter_iterable self it)) w)).
    assert (Hw2 : trace w2 = trace w ++ [EvBuild [ds]] ∧
                  retrieval_profile w2 = retrieval_profile w ∧
                  warnings w2 = warnings w ++ warned (_filter_iterable self it)).
    { unfold w2, engine_build, create_file. by cbn. }
    destruct Hw2 as (Htr2 & Hpr2 & Hwn2). clearbody w2.
    unfold _IterDictIndexer_nofifo.finish, nofifo_hook_trace, profile_after,
      indexref_of, hooks_nofifo.
    change (type s) with (type self). change (cleanup_hooks s) with (cleanup_hooks self).
    change (index_dir s) with (index_dir self).
    destruct (decide (type self = MEMORY)) as [Hty|Hty].
    - cbn. rewrite Htr2, Hpr2, Hwn2. by repeat split.
    - destruct (cleanup_hooks self) as [|h hs] eqn:Hhs.
      + cbn. rewrite Htr2, Hpr2, Hwn2. by repeat split.
      + cbn [length Nat.ltb Nat.leb].
        set (w3 := log _ (setIndexLoadingProfileAsRetrieval false w2)).
        destruct (run_hooks_all_return (h :: hs) w3 Hhooks) as [Hres Htr].
        pose proof (run_hooks_frame (h :: hs) w3) as (_ & Hpr & Hwn).
        destruct (run_hooks (h :: hs) w3) as [w4 r]. cbn in Hres, Htr, Hpr, Hwn.
        subst r. cbn. rewrite Htr, Htr2, Hwn, Hwn2.
        repeat split; try done. by rewrite <- !app_assoc. }
  subst o. unfold _IterDictIndexer_nofifo.index, _setup, createIndexer.
  cbn [check_fields_arg]. rewrite Hguard, Hth, Hcls. cbn.
  destruct (pretokenised self) eqn:Hp.
  - rewrite (Hpre eq_refl). cbn. rewrite Hret, Hrun. apply (Hfin true).
  - rewrite Hret, Hrun. apply (Hfin false).
Qed.

Lemma nofifo_index_completes_witness :
  checkIndexExists one_hook_indexer fresh_world = Ok tt ∧
  threads one_hook_indexer = 1 ∧
  (type one_hook_indexer = MEMORY → blocks one_hook_indexer = false) ∧
  (pretokenised one_hook_indexer = true → blocks one_hook_indexer = false) ∧
  returned (_filter_iterable one_hook_indexer (iter [PyDict doc_d1; PyDict doc_d2]))
  = Ok gen_d1_d2 ∧
  consume gen_d1_d2 = ([doc_d1_narrowed; doc_d2_narrowed], None) ∧
  Forall (λ h, hook_raises h = false) (cleanup_hooks one_hook_indexer) ∧
  let o := _IterDictIndexer_nofifo.index one_hook_indexer fresh_world
             (iter [PyDict doc_d1; PyDict doc_d2]) None in
  result_of o = Ok (indexref_of one_hook_indexer) ∧
  self_after o = set_index_called true one_hook_indexer ∧
  trace (world_after o)
  = trace fresh_world ++ EvBuild [[doc_d1_narrowed; doc_d2_narrowed]]
      :: nofifo_hook_trace one_hook_indexer ∧
  retrieval_profile (world_after o) = profile_after one_hook_indexer fresh_world ∧
  warnings (world_after o)
  = warnings fresh_world
    ++ warned (_filter_iterable one_hook_indexer (iter [PyDict doc_d1; PyDict doc_d2])).
Proof.
  assert (H1 : checkIndexExists one_hook_indexer fresh_world = Ok tt)
    by (vm_compute; reflexivity).
  assert (H2 : threads one_hook_indexer = 1) by reflexivity.
  assert (H3 : type one_hook_indexer = MEMORY → blocks one_hook_indexer = false)
    by reflexivity.
  assert (H4 : pretokenised one_hook_indexer = true → blocks one_hook_indexer = false)
    by reflexivity.
  assert (H5 : returned (_filter_iterable one_hook_indexer
                           (iter [PyDict doc_d1; PyDict doc_d2])) = Ok gen_d1_d2)
    by reflexivity.
  assert (H6 : consume gen_d1_d2 = ([doc_d1_narrowed; doc_d2_narrowed], None))
    by (vm_compute; reflexivity).
  assert (H7 : Forall (λ h, hook_raises h = false) (cleanup_hooks one_hook_indexer))
    by (repeat constructor).
  split; [exact H1|]. split; [exact H2|]. split; [exact H3|]. split; [exact H4|].
  split; [exact H5|]. split; [exact H6|]. split; [exact H7|].
  exact (nofifo_index_completes one_hook_indexer fresh_world
           (iter [PyDict doc_d1; PyDict doc_d2]) gen_d1_d2
           [doc_d1_narrowed; doc_d2_narrowed] H1 H2 H3 H4 H5 H6 H7).
Defined.

(** ** Streams that fail under way *)






(** X11.  In the Windows variant an exception of the stream reaches the
    caller: when the guards pass and the first record validates, but the
    sequence raises while the engine consumes it, [index] raises that
    exception.  Whether the attempt counts as the one permitted call depends
    on [pretokenised]: [index_called] is set before the engine call when it
    is on and after it when it is off.  So the indexer object is unchanged
    when [pretokenised] is off, and when it is on an indexer with an on-disk
    index refuses every later call, whatever is on disk by then. *)
Theorem nofifo_index_stream_failure
    (self : indexer) (w : world) (it : source) (g : genexpr)
    (ds : list doc) (e : pyerror) :
  checkIndexExists self w = Ok tt →
  threads self = 1 →
  (type self = MEMORY → blocks self = false) →
  (pretokenised self = true → blocks self = false) →
  returned (_filter_iterable self it) = Ok g →
  consume g = (ds, Some e) →
  let o := _IterDictIndexer_nofifo.index self w it None in
  result_of o = Err e ∧
  self_after o = (if pretokenised self then set_index_called true self else self) ∧
  (pretokenised self = true → path self ≠ None →
   ∀ w' it' fields_arg,
     is_ok (result_of (_IterDictIndexer_nofifo.index (self_after o) w' it' fields_arg))
     = false).
Proof.
  intros Hguard Hth Hmem Hpre Hret Hrun o.
  destruct (indexer_classes_defined self Hmem) as [cls Hcls].
  assert (Ho : o = raised (if pretokenised self then set_index_called true self else self)
                     (warn (warned (_filter_iterable self it)) w) e).
  { subst o. unfold _IterDictIndexer_nofifo.index, _setup, createIndexer.
    cbn [check_fields_arg]. rewrite Hguard, Hth, Hcls. cbn.
    destruct (pretokenised self) eqn:Hp.
    - rewrite (Hpre eq_refl). cbn. by rewrite Hret, Hrun.
    - by rewrite Hret, Hrun. }
  rewrite Ho. clear Ho o. cbn [result_of self_after raised].
  split; [done|]. split; [done|]. intros -> Hpath w' it' fields_arg.
  destruct (path self) as [p|] eqn:Hp'; [|done].
  unfold _IterDictIndexer_nofifo.index, _setup, checkIndexExists.
  destruct (check_fields_arg fields_arg); [|done].
  cbn [path overwrite index_called set_index_called]. rewrite Hp'.
  by destruct (bool_decide (p ∈ files w') && negb (overwrite self)).
Qed.

Lemma nofifo_index_stream_failure_witness :
  checkIndexExists pretokenised_indexer fresh_world = Ok tt ∧
  threads pretokenised_indexer = 1 ∧
  (type pretokenised_indexer = MEMORY → blocks pretokenised_indexer = false) ∧
  (pretokenised pretokenised_indexer = true → blocks pretokenised_indexer = false) ∧
  returned (_filter_iterable pretokenised_indexer (iter [PyDict doc_toks; PyDict doc_d1]))
  = Ok gen_toks_d1 ∧
  consume gen_toks_d1 = ([doc_toks], Some (PyKeyError "toks")) ∧
  let o := _IterDictIndexer_nofifo.index pretokenised_indexer fresh_world
             (iter [PyDict doc_toks; PyDict doc_d1]) None in
  result_of o = Err (PyKeyError "toks") ∧
  self_after o = (if pretokenised pretokenised_indexer
                  then set_index_called true pretokenised_indexer
                  else pretokenised_indexer) ∧
  (pretokenised pretokenised_indexer = true → path pretokenised_indexer ≠ None →
   ∀ w' it' fields_arg,
     is_ok (result_of (_IterDictIndexer_nofifo.index (self_after o) w' it' fields_arg))
     = false).
Proof.
  assert (H1 : checkIndexExists pretokenised_indexer fresh_world = Ok tt)
    by (vm_compute; reflexivity).
  assert (H2 : threads pretokenised_indexer = 1) by reflexivity.
  assert (H3 : type pretokenised_indexer = MEMORY → blocks pretokenised_indexer = false)
    by reflexivity.
  assert (H4 : pretokenised pretokenised_indexer = true →
               blocks pretokenised_indexer = false) by reflexivity.
  assert (H5 : returned (_filter_iterable pretokenised_indexer
                           (iter [PyDict doc_toks; PyDict doc_d1])) = Ok gen_toks_d1)
    by reflexivity.
  assert (H6 : consume gen_toks_d1 = ([doc_toks], Some (PyKeyError "toks")))
    by (vm_compute; reflexivity).
  split; [exact H1|]. split; [exact H2|]. split; [exact H3|]. split; [exact H4|].
  split; [exact H5|]. split; [exact H6|].
  exact (nofifo_index_stream_failure pretokenised_indexer fresh_world
           (iter [PyDict doc_toks; PyDict doc_d1]) gen_toks_d1 [doc_toks]
           (PyKeyError "toks") H1 H2 H3 H4 H5 H6).
Defined.

(** ** When a build is refused *)

Lemma check_meta_key_not_guard k b d :
  match (check_meta_key k b d).2 with
  | Err e => is_guard_error e = false
  | Ok _ => True
  end.
Proof.
  unfold check_meta_key. destruct (d !! k) as [v|]; [|done].
  destruct v as [[| | | |s]|items]; cbn; try done;
    destruct (b <? _); try done; by destruct (String.eqb k "docno").
Qed.

Lemma validation_not_guard self obj e :
  (_validate_doc_dict self obj).2 = Err e → is_guard_error e = false.
Proof.
  unfold _validate_doc_dict. destruct (_is_dict obj); cbn [negb].
  - induction (meta self) as [|[k b] m IH]; cbn [validate_meta]; [done|].
    pose proof (check_meta_key_not_guard k b (items_of obj)) as Hk.
    destruct (check_meta_key k b (items_of obj)) as [ws [[]|e']]; cbn in *.
    + destruct (validate_meta m (items_of obj)) as [ws' r]. cbn in *. exact IH.
    + by intros [= <-].
  - by intros [= <-].
Qed.

Lemma filter_iterable_not_guard self it e :
  returned (_filter_iterable self it) = Err e → is_guard_error e = false.
Proof.
  unfold _filter_iterable, spy. destruct (remaining it) as [|obj rest]; cbn; [done|].
  pose proof (validation_not_guard self obj) as Hv.
  destruct (_validate_doc_dict self obj) as [ws [[]|e']]; cbn in *; [done|].
  intros [= <-]. by apply Hv.
Qed.

Lemma consume_not_guard g ds e :
  consume g = (ds, Some e) → is_guard_error e = false.
Proof.
  unfold consume. generalize (gen_chained g ++ remaining (gen_source g)) as objs.
  intros objs. revert ds. induction objs as [|obj objs IH]; intros ds; cbn [project_all].
  - done.
  - destruct (project (gen_cols g) obj) as [r|e'] eqn:Hr.
    + destruct (project_all (gen_cols g) objs) as [ds' [e''|]]; intros [= <- <-].
      by eapply IH.
    + intros [= <- <-].
      by destruct (project_raises _ _ _ Hr) as [(? & _ & ->)|(? & ? & _ & -> & _)].
Qed.

Lemma run_hooks_not_guard hs w e :
  (run_hooks hs w).2 = Err e → is_guard_error e = false.
Proof.
  revert w. induction hs as [|h hs IH]; intros w; cbn [run_hooks]; [done|].
  destruct (hook_raises h); [by intros [= <-]|]. apply IH.
Qed.

Lemma hooks_nofifo_not_guard self ref w e :
  result_of (hooks_nofifo self ref w) = Err e → is_guard_error e = false.
Proof.
  unfold hooks_nofifo. destruct (0 <? length (cleanup_hooks self))%nat; [|done].
  set (w1 := log _ _). pose proof (run_hooks_not_guard (cleanup_hooks self) w1) as Hh.
  destruct (run_hooks (cleanup_hooks self) w1) as [w2 [[]|e']]; cbn in *; [done|].
  intros [= <-]. by apply Hh.
Qed.

Lemma hooks_fifo_not_guard self ref w e :
  result_of (hooks_fifo self ref w) = Err e → is_guard_error e = false.
Proof.
  unfold hooks_fifo. destruct (0 <? length (cleanup_hooks self))%nat; [|done].
  set (w1 := setIndexLoadingProfileAsRetrieval true _).
  pose proof (run_hooks_not_guard (cleanup_hooks self) w1) as Hh.
  destruct (run_hooks (cleanup_hooks self) w1) as [w2 [[]|e']]; cbn in *; [done|].
  intros [= <-]. by apply Hh.
Qed.

(** Past the guard, no error of [index] is one of the guard's. *)
Lemma index_past_guard has_mkfifo ready_at self w it e :
  checkIndexExists self w = Ok tt →
  result_of (IterDictIndexer_index has_mkfifo ready_at self w it None) = Err e →
  is_guard_error e = false.
Proof.
  intros Hguard. unfold IterDictIndexer_index. destruct has_mkfifo.
  - unfold _IterDictIndexer_fifo.index, _setup. cbn [check_fields_arg].
    rewrite Hguard. unfold indexerAndMergerClasses.
    destruct (type self), (blocks self); cbn;
      try (by intros [= <-]);
      (destruct (0 <? threads self); cbn; [|by intros [= <-]]);
      try (destruct (threads self =? 1); cbn; [|by intros [= <-]]);
      (pose proof (filter_iterable_not_guard self it) as Hf;
       destruct (returned (_filter_iterable self it)) as [g|e']; cbn;
         [|by intros [= <-]; apply Hf]);
      destruct (_write_fifos ready_at (consume g) _) as [wr out];
      try apply hooks_fifo_not_guard.
    set (w1 := engine_build _ _ _).
    pose proof (run_hooks_not_guard (cleanup_hooks self) w1) as Hh.
    destruct (run_hooks (cleanup_hooks self) w1) as [w2 [[]|e']]; cbn in *; [done|].
    intros [= <-]. by apply Hh.
  - unfold _IterDictIndexer_nofifo.index, _setup. cbn [check_fields_arg].
    rewrite Hguard. destruct (threads self =? 1); cbn; [|by intros [= <-]].
    unfold createIndexer, indexerAndMergerClasses.
    assert (Hfin : ∀ s w', result_of (_IterDictIndexer_nofifo.finish s w') = Err e →
                           is_guard_error e = false).
    { intros s w'. unfold _IterDictIndexer_nofifo.finish.
      destruct (decide (type s = MEMORY)); [done|]. apply hooks_nofifo_not_guard. }
    pose proof (filter_iterable_not_guard self it) as Hf.
    destruct (type self), (blocks self); cbn; try (by intros [= <-]);
      destruct (pretokenised self); cbn; try (by intros [= <-]);
      (destruct (returned (_filter_iterable self it)) as [g|e']; cbn;
         [|by intros [= <-]; apply Hf]);
      pose proof (consume_not_guard g) as Hc;
      (destruct (consume g) as [ds [e'|]]; cbn;
         [by intros [= <-]; eapply Hc|]); apply Hfin.
Qed.

(** X12.  [index] raises the index-exists error exactly when the indexer
    has a path at which a file exists and [overwrite] is off, and the
    already-built error exactly when it has a path, that refusal does not
    apply, and [index_called] is set; in both cases nothing else has
    happened.  An indexer of type [MEMORY] built by the constructor has no
    path and meets neither. *)
Theorem index_refusal_iff
    (has_mkfifo : bool) (ready_at : nat → nat → bool) (self : indexer)
    (w : world) (it : source) (p : string) :
  let o := IterDictIndexer_index has_mkfifo ready_at self w it None in
  (result_of o = Err (IndexExistsError p) ↔
   path self = Some p ∧ p ∈ files w ∧ overwrite self = false) ∧
  (result_of o = Err AlreadyBuiltError ↔
   ∃ q, path self = Some q ∧ ¬ (q ∈ files w ∧ overwrite self = false) ∧
        index_called self = true) ∧
  (is_guard_error <$> (match result_of o with Err e => Some e | Ok _ => None end)
   = Some true → self_after o = self ∧ world_after o = w).
Proof.
  intros o.
  destruct (checkIndexExists self w) as [[]|e0] eqn:Hguard.
  - pose proof (index_past_guard has_mkfifo ready_at self w it) as Hpast.
    specialize (λ e, Hpast e Hguard). fold o in Hpast.
    unfold checkIndexExists in Hguard. split; [|split].
    + split.
      * intros Hres. by specialize (Hpast _ Hres).
      * intros (Hp & Hin & Hov). rewrite Hp, Hov in Hguard.
        by rewrite bool_decide_eq_true_2 in Hguard.
    + split.
      * intros Hres. by specialize (Hpast _ Hres).
      * intros (q & Hp & Hnot & Hc). rewrite Hp, Hc in Hguard.
        by destruct (bool_decide (q ∈ files w) && negb (overwrite self)).
    + destruct (result_of o) as [ref|e]; cbn; [done|].
      intros [= He]. by rewrite (Hpast e eq_refl) in He.
  - assert (Ho : o = raised self w e0).
    { subst o. unfold IterDictIndexer_index, _IterDictIndexer_fifo.index,
        _IterDictIndexer_nofifo.index, _setup. cbn [check_fields_arg].
      rewrite Hguard. by destruct has_mkfifo. }
    rewrite Ho. cbn [result_of self_after world_after raised].
    unfold checkIndexExists in Hguard.
    destruct (path self) as [q|] eqn:Hp; [|done].
    destruct (bool_decide (q ∈ files w)) eqn:Hin;
      [apply bool_decide_eq_true_1 in Hin | apply bool_decide_eq_false_1 in Hin];
      destruct (overwrite self) eqn:Hov; cbn in Hguard;
      try (destruct (index_called self) eqn:Hc; [|done]);
      injection Hguard as <-; (split; [|split; [|done]]); split;
      try (intros [= <-]); try done.
    all: try (by intros (? & ? & ?)).
    all: try (intros ([= <-] & ? & ?); done).
    all: try (exists q; repeat split; try done; by intros [? ?]).
    all: try (intros (q' & [= <-] & Hnot & _); exfalso; by apply Hnot).
Qed.

(** ** Arguments that are refused *)




(** ** Module-level functions of the file indexers *)

Lemma split_nonempty sep s : split sep s ≠ [].
Proof.
  destruct s as [|a rest]; cbn [split]; [done|].
  destruct (Ascii.eqb a sep); [done|]. by destruct (split sep rest).
Qed.

(** Joining what [split] returns gives the string back. *)
Lemma join_split s : join (split "," s) = s.
Proof.
  unfold join. induction s as [|a rest IH]; cbn [split]; [done|].
  destruct (Ascii.eqb a ",") eqn:Ha.
  - apply Ascii.eqb_eq in Ha as ->.
    pose proof (split_nonempty "," rest) as Hne.
    destruct (split "," rest) as [|hd tl] eqn:Hs; [done|].
    cbn [String.concat]. cbn. by rewrite <- IH.
  - destruct (split "," rest) as [|hd tl] eqn:Hs; [by destruct (split_nonempty "," rest)|].
    destruct tl as [|hd' tl]; cbn [String.concat] in *; cbn; by rewrite <- IH.
Qed.

(** The class names are not themselves short names. *)
Lemma resolve_idempotent c : resolve (resolve c) = resolve c.
Proof.
  unfold resolve. destruct (type_to_class !! c) as [cls|] eqn:Hc.
  - change (default c (Some cls)) with cls.
    unfold type_to_class in Hc. apply elem_of_list_to_map_2 in Hc.
    repeat (apply elem_of_cons in Hc as [[= -> ->]|Hc]; [by vm_compute|]).
    by apply elem_of_nil in Hc.
  - change (default c None) with c. by rewrite Hc.
Qed.

Lemma abstract_lengths_ok meta names ls :
  abstract_lengths meta names = Ok ls →
  Forall (λ name, is_Some (dict_get meta name)) names ∧
  ls = length_text meta <$> names.
Proof.
  revert ls. induction names as [|name rest IH]; intros ls; cbn [abstract_lengths].
  - intros [= <-]. done.
  - destruct (dict_get meta name) as [le|] eqn:Hle; [|done].
    destruct (abstract_lengths meta rest) as [ls'|e]; [|done].
    intros [= <-]. destruct (IH ls' eq_refl) as [Hall ->].
    split; [constructor; [by exists le|done]|].
    rewrite fmap_cons. f_equal. unfold length_text. by rewrite Hle.
Qed.

Lemma abstract_lengths_err meta names e :
  abstract_lengths meta names = Err e →
  ∃ before name after,
    names = before ++ name :: after ∧ e = PyKeyError name ∧
    dict_get meta name = None ∧
    Forall (λ name, is_Some (dict_get meta name)) before.
Proof.
  induction names as [|name rest IH]; cbn [abstract_lengths]; [done|].
  destruct (dict_get meta name) as [le|] eqn:Hle.
  - destruct (abstract_lengths meta rest) as [ls'|e']; [done|].
    intros [= <-]. destruct (IH eq_refl) as (before & name' & after & -> & -> & Hn & Hall).
    exists (name :: before), name', after. repeat split; try done.
    constructor; [by exists le|done].
  - intros [= <-]. by exists [], name, rest.
Qed.

Lemma abstract_lengths_defined meta names :
  Forall (λ name, is_Some (dict_get meta name)) names →
  abstract_lengths meta names = Ok (length_text meta <$> names).
Proof.
  intros Hall. destruct (abstract_lengths meta names) as [ls|e] eqn:Hl.
  - by apply abstract_lengths_ok in Hl as [_ ->].
  - apply abstract_lengths_err in Hl as (before & name & after & -> & _ & Hn & _).
    apply Forall_app in Hall as [_ Hall]. apply Forall_cons in Hall as [[le Hle] _].
    congruence.
Qed.

Lemma tagged_setup_returns meta meta_tags app :
  tags_have_lengths meta meta_tags →
  _TaggedDocumentSetup meta meta_tags app = (tagged_setup meta meta_tags app, Returned tt).
Proof.
  intros Hall. unfold _TaggedDocumentSetup.
  by rewrite (abstract_lengths_defined _ _ Hall).
Qed.

Lemma tagged_setup_raises meta meta_tags app :
  ¬ tags_have_lengths meta meta_tags →
  ∃ before name after,
    meta_tags.*1 = before ++ name :: after ∧
    dict_get meta name = None ∧
    Forall (λ name, is_Some (dict_get meta name)) before ∧
    _TaggedDocumentSetup meta meta_tags app = (app, Failed (Raised (PyKeyError name))).
Proof.
  intros Hnot. unfold _TaggedDocumentSetup.
  destruct (abstract_lengths meta meta_tags.*1) as [ls|e] eqn:Hl.
  - by apply abstract_lengths_ok in Hl as [Hall _].
  - apply abstract_lengths_err in Hl as (before & name & after & Heq & -> & Hn & Hall).
    by exists before, name, after.
Qed.


(** X15.  [_TaggedDocumentSetup] returns exactly when every key of
    [meta_tags] has a length in [meta].  Otherwise it raises [KeyError] for
    the first key, in the order of [meta_tags], that has none, and no
    property has been set.  When it returns, the three lists it has set
    name the keys, their tags and the lengths of the keys in the order of
    [meta_tags], and every property other than its four is as before. *)
Theorem tagged_document_setup_outcome
    (meta : list (string * Z)) (meta_tags : list (string * string))
    (app : gmap string string) :
  let o := _TaggedDocumentSetup meta meta_tags app in
  (o.2 = Returned tt ↔ tags_have_lengths meta meta_tags) ∧
  (∀ e, o.2 = Failed e →
     o.1 = app ∧
     ∃ before name after,
       meta_tags.*1 = before ++ name :: after ∧
       e = Raised (PyKeyError name) ∧
       dict_get meta name = None ∧
       Forall (λ name, is_Some (dict_get meta name)) before) ∧
  (o.2 = Returned tt →
     o.1 !! "TaggedDocument.abstracts" = Some (join meta_tags.*1) ∧
     o.1 !! "TaggedDocument.abstracts.tags" = Some (join meta_tags.*2) ∧
     o.1 !! "TaggedDocument.abstracts.lengths"
       = Some (join ((λ name, py_str_int (default 0 (dict_get meta name)))
                       <$> meta_tags.*1)) ∧
     o.1 !! "TaggedDocument.abstracts.tags.casesensitive" = Some "false" ∧
     ∀ k, k ∉ ["TaggedDocument.abstracts"; "TaggedDocument.abstracts.tags";
               "TaggedDocument.abstracts.lengths";
               "TaggedDocument.abstracts.tags.casesensitive"] →
          o.1 !! k = app !! k).
Proof.
  intros o. subst o.
  destruct (decide (tags_have_lengths meta meta_tags)) as [Hall|Hnot].
  - rewrite (tagged_setup_returns _ _ app Hall). cbn [fst snd].
    split; [done|]. split; [done|]. intros _. unfold tagged_setup.
    repeat split; try by simplify_map_eq.
    intros k Hk. rewrite !not_elem_of_cons in Hk.
    destruct Hk as (? & ? & ? & ? & _). by simplify_map_eq.
  - destruct (tagged_setup_raises _ _ app Hnot) as (before & name & after & Heq & Hn & Hb & ->).
    cbn [fst snd]. split; [split; [done|by intros]|]. split; [|done].
    intros e [= <-]. split; [done|]. by exists before, name, after.
Qed.

(** The loop of [_FileDocumentSetup] keeps the last key tagged [ELSE]. *)
Lemma meta_name_for_abstract_snoc meta_tags kv :
  meta_name_for_abstract (meta_tags ++ [kv])
  = if decide (kv.2 = "ELSE") then Some kv.1 else meta_name_for_abstract meta_tags.
Proof. unfold meta_name_for_abstract. by rewrite foldl_app. Qed.

Lemma meta_name_for_abstract_none meta_tags :
  meta_name_for_abstract meta_tags = None ↔ "ELSE" ∉ meta_tags.*2.
Proof.
  induction meta_tags as [|kv meta_tags IH] using rev_ind; [by split; [intros _; set_solver|]|].
  rewrite meta_name_for_abstract_snoc, fmap_app, not_elem_of_app. cbn [fmap list_fmap].
  case_decide as Hkv.
  - split; [done|]. intros [_ Hn]. set_solver.
  - rewrite IH. split; [intros Hn; split; [done|set_solver]|by intros [Hn _]].
Qed.

Lemma meta_name_for_abstract_last meta_tags k :
  meta_name_for_abstract meta_tags = Some k ↔
  ∃ before after, meta_tags = before ++ (k, "ELSE") :: after ∧ "ELSE" ∉ after.*2.
Proof.
  induction meta_tags as [|kv meta_tags IH] using rev_ind.
  - split; [done|]. intros (before & after & Heq & _). by destruct before.
  - rewrite meta_name_for_abstract_snoc. destruct kv as [k' v]. cbn [fst snd].
    case_decide as Hv.
    + subst v. split.
      * intros [= ->]. exists meta_tags, []. split; [done|]. cbn. set_solver.
      * intros (before & after & Heq & Hn).
        destruct after as [|x after _] using rev_ind.
        -- apply app_inj_tail in Heq as [_ [= ->]]. done.
        -- rewrite app_comm_cons, app_assoc in Heq.
           apply app_inj_tail in Heq as [_ <-].
           rewrite fmap_app in Hn. set_solver.
    + rewrite IH. split.
      * intros (before & after & -> & Hn). exists before, (after ++ [(k', v)]).
        split; [by rewrite <- app_assoc|]. rewrite fmap_app. set_solver.
      * intros (before & after & Heq & Hn).
        destruct after as [|x after _] using rev_ind.
        -- apply app_inj_tail in Heq as [_ [= -> ->]]. done.
        -- rewrite app_comm_cons, app_assoc in Heq.
           apply app_inj_tail in Heq as [-> <-].
           exists before, after. split; [done|]. rewrite fmap_app in Hn. set_solver.
Qed.

(** X16.  [_FileDocumentSetup] looks at the last key of [meta_tags] whose
    tag is [ELSE].  With no such key it returns and sets nothing; when that
    key has a length in [meta] it sets the two [FileDocument] properties to
    the key and its length; when it has none it raises the [ValueError] that
    names the key and sets nothing.  Earlier keys tagged [ELSE] play no
    part. *)
Theorem file_document_setup_outcome
    (meta : list (string * Z)) (meta_tags : list (string * string))
    (app : gmap string string) :
  let o := _FileDocumentSetup meta meta_tags app in
  ("ELSE" ∉ meta_tags.*2 → o = (app, Returned tt)) ∧
  (∀ before k after,
     meta_tags = before ++ (k, "ELSE") :: after → "ELSE" ∉ after.*2 →
     match dict_get meta k with
     | Some le =>
         o = (<["FileDocument.abstract.length" := py_str_int le]>
                (<["FileDocument.abstract" := k]> app), Returned tt)
     | None => o = (app, Failed (MetaLengthRequiredError k))
     end) ∧
  (∀ e, o.2 = Failed e →
     o.1 = app ∧
     ∃ before k after,
       meta_tags = before ++ (k, "ELSE") :: after ∧ ("ELSE" ∉ after.*2) ∧
       dict_get meta k = None ∧ e = MetaLengthRequiredError k).
Proof.
  intros o. subst o. unfold _FileDocumentSetup. split; [|split].
  - intros Hn. apply meta_name_for_abstract_none in Hn. by rewrite Hn.
  - intros before k after Heq Hn.
    assert (meta_name_for_abstract meta_tags = Some k) as ->
      by (apply meta_name_for_abstract_last; by exists before, after).
    by destruct (dict_get meta k).
  - intros e. destruct (meta_name_for_abstract meta_tags) as [k|] eqn:Hk; [|done].
    apply meta_name_for_abstract_last in Hk as (before & after & Heq & Hn).
    destruct (dict_get meta k) as [le|] eqn:Hle; [done|].
    intros [= <-]. split; [done|]. by exists before, k, after.
Qed.

(** X17.  [createCollection] returns exactly for a non-empty [str] and a
    non-empty [list]: the collection is then made of that one path, or of
    the paths of the list in order, and its class names, joined by commas,
    are the class that [coll_type] stands for (resolving a name that was
    already resolved changes nothing).  An empty [str] or [list], and any
    other object of length 0, is refused as an empty list; any other object
    with a length is refused for its type.  In every case the properties
    passed as [props] have been put into the engine's properties. *)
Theorem create_collection_outcome
    (files_path : files_arg) (coll_type : string)
    (props app : gmap string string) :
  let o := createCollection files_path coll_type props app in
  (∀ k, o.1 !! k = match props !! k with Some v => Some v | None => app !! k end) ∧
  (∀ c, o.2 = Returned c ↔
        ∃ paths classes,
          c = LoadedCollection classes paths ∧ paths ≠ [] ∧
          classes = split "," (resolve coll_type) ∧
          (files_path = PathList paths ∨
           ∃ s, s ≠ "" ∧ files_path = PathStr s ∧ paths = [s])) ∧
  (∀ classes paths, o.2 = Returned (LoadedCollection classes paths) →
     join classes = resolve coll_type) ∧
  createCollection files_path (resolve coll_type) props app = o ∧
  (o.2 = Failed EmptyFilesPathError ↔ files_len files_path = Ok 0%nat) ∧
  (∀ ty, o.2 = Failed (FilesPathTypeError ty) ↔
         ∃ n, files_path = PathOther ty (Some (S n))).
Proof.
  intros o. subst o. unfold createCollection. rewrite resolve_idempotent.
  split; [|split; [|split; [|split; [|split]]]].
  - intros k. cbn [fst]. unfold putAll.
    destruct files_path as [s|l|ty [n|]]; cbn [files_len];
      repeat (match goal with |- context [if ?b then _ else _] => destruct b end);
      cbn [createAsList fst];
      (destruct (props !! k) as [v|] eqn:Hk;
       [by apply lookup_union_Some_l|by rewrite lookup_union_r]).
  - intros c. destruct files_path as [s|l|ty [n|]]; cbn [files_len createAsList snd].
    + destruct s as [|a s]; cbn [String.length Nat.eqb snd].
      * split; [done|]. intros (paths & classes & _ & _ & _ & [[=]|(s & Hs & [= <-] & _)]).
        done.
      * split.
        -- intros [= <-]. eexists _, _. split; [done|]. split; [done|]. split; [done|].
           right. by exists (String a s).
        -- intros (paths & classes & -> & _ & -> & [[=]|(s' & _ & [= <-] & ->)]). done.
    + destruct l as [|p l]; cbn [length Nat.eqb snd].
      * split; [done|]. intros (paths & classes & _ & Hne & _ & [[= <-]|(s & _ & [=] & _)]).
        done.
      * split.
        -- intros [= <-]. eexists _, _. split; [done|]. split; [done|]. split; [done|].
           by left.
        -- intros (paths & classes & -> & _ & -> & [[= <-]|(s' & _ & [=] & _)]). done.
    + destruct (n =? 0)%nat; cbn [snd];
        (split; [done|]; intros (? & ? & _ & _ & _ & [[=]|(? & _ & [=] & _)])).
    + split; [done|]. intros (? & ? & _ & _ & _ & [[=]|(? & _ & [=] & _)]).
  - intros classes paths.
    destruct files_path as [s|l|ty [n|]]; cbn [files_len createAsList snd];
      repeat (match goal with |- context [if ?b then _ else _] => destruct b end);
      cbn [snd]; try done; intros [= <- <-]; apply join_split.
  - done.
  - destruct files_path as [s|l|ty [n|]]; cbn [files_len createAsList snd].
    + destruct s; cbn [String.length Nat.eqb snd]; split; done.
    + destruct l; cbn [length Nat.eqb snd]; split; done.
    + destruct n; cbn [Nat.eqb snd]; split; done.
    + split; done.
  - intros ty'. destruct files_path as [s|l|ty [n|]]; cbn [files_len createAsList snd].
    + destruct s; cbn [String.length Nat.eqb snd]; split; try done; by intros [? [=]].
    + destruct l; cbn [length Nat.eqb snd]; split; try done; by intros [? [=]].
    + destruct n; cbn [Nat.eqb snd]; split; try done.
      * by intros [? [=]].
      * intros [= ->]. by eexists.
      * intros [? [= -> <-]]. done.
    + split; [done|]. by intros [? [=]].
Qed.

(** ** The [index] methods of the file indexers *)

Lemma prepare_passes configured self t :
  head_passes self t →
  ∃ cls, prepare configured self t
         = (with_setup (putAll configured (application_setup t)) t, Returned cls).
Proof.
  intros [Hg Hm]. unfold prepare, createIndexer. rewrite Hg.
  destruct (indexer_classes_defined _ Hm) as [cls ->]. by exists cls.1.
Qed.

(** A key tagged [ELSE] is a key of [meta_tags]: where every key has a
    length, [_FileDocumentSetup] finds the one it needs. *)
Lemma file_setup_after_tagged_setup meta meta_tags app :
  tags_have_lengths meta meta_tags →
  (_FileDocumentSetup meta meta_tags app).2 = Returned tt.
Proof.
  intros Hall. unfold _FileDocumentSetup.
  destruct (meta_name_for_abstract meta_tags) as [k|] eqn:Hk; [|done].
  apply meta_name_for_abstract_last in Hk as (before & after & -> & _).
  unfold tags_have_lengths in Hall. rewrite fmap_app, fmap_cons in Hall.
  apply Forall_app in Hall as [_ Hall]. apply Forall_cons in Hall as [[le Hle] _].
  cbn [fst] in Hle. by rewrite Hle.
Qed.

Lemma trec_index_runs configured self t l :
  head_passes self t →
  tags_have_lengths (meta (base self)) (meta_tags self) →
  l ≠ [] →
  TRECCollectionIndexer.index configured self t (PathList l)
  = let t1 := with_setup (tagged_setup (meta (base self)) (meta_tags self)
                            (putAll configured (application_setup t))) t in
    let t2 := engine_index (base self)
                (LoadedCollection (split "," (resolve (collection self))) l) t1 in
    let wr := run_hooks (cleanup_hooks (base self)) (host t2) in
    match wr.2 with
    | Err e => failed (called self) (with_host wr.1 t2) (Raised e)
    | Ok _ =>
        {| indexer_after := called self; jvm_after := with_host wr.1 t2;
           outcome_of := Returned (indexref_of (base self)) |}
    end.
Proof.
  intros Hhead Htags Hl. unfold TRECCollectionIndexer.index.
  destruct (prepare_passes configured self t Hhead) as [cls ->].
  cbn [with_setup application_setup].
  rewrite (tagged_setup_returns _ _ _ Htags).
  unfold createCollection, putAll. rewrite (left_id_L ∅ (∪)).
  destruct l as [|p l]; [done|]. cbn [files_len length Nat.eqb createAsList].
  cbv zeta. unfold indexref_of.
  cbn [with_setup with_host engine_index application_setup host indexed
       called base type index_dir set_index_called cleanup_hooks].
  match goal with
  | |- context [run_hooks ?hs ?w] => destruct (run_hooks hs w) as [w' [[]|e]]
  end; done.
Qed.

Lemma files_index_runs configured self t files_path l :
  head_passes self t →
  createAsList files_path = Returned l →
  tags_have_lengths (meta (base self)) (meta_tags self) →
  FilesIndexer.index configured self t files_path
  = let app1 := (_FileDocumentSetup (meta (base self)) (meta_tags self)
                   (tagged_setup (meta (base self)) (meta_tags self)
                      (putAll configured (application_setup t)))).1 in
    let t2 := engine_index (base self) (SimpleFileCollection l) (with_setup app1 t) in
    let o := _IterDictIndexer_nofifo.finish (set_index_called true (base self)) (host t2) in
    {| indexer_after := {| base := self_after o; collection := collection self;
                           meta_tags := meta_tags self |};
       jvm_after := with_host (world_after o) t2;
       outcome_of := lift (result_of o) |}.
Proof.
  intros Hhead Hlist Htags. unfold FilesIndexer.index.
  destruct (prepare_passes configured self t Hhead) as [cls ->].
  rewrite Hlist. cbn [with_setup application_setup].
  rewrite (tagged_setup_returns _ _ _ Htags).
  pose proof (file_setup_after_tagged_setup (meta (base self)) (meta_tags self)
    (tagged_setup (meta (base self)) (meta_tags self)
       (putAll configured (application_setup t))) Htags) as Hfile.
  destruct (_FileDocumentSetup _ _ _) as [app1 r]. cbn [snd] in Hfile. subst r.
  done.
Qed.

(** What follows the engine call in the Windows variant and in
    [FilesIndexer.index], when no hook that runs raises. *)
Lemma nofifo_finish_returns self w :
  (type self ≠ MEMORY → Forall (λ h, hook_raises h = false) (cleanup_hooks self)) →
  let o := _IterDictIndexer_nofifo.finish self w in
  result_of o = Ok (indexref_of self) ∧
  self_after o = self ∧
  trace (world_after o) = trace w ++ nofifo_hook_trace self ∧
  retrieval_profile (world_after o) = profile_after self w ∧
  files (world_after o) = files w ∧
  warnings (world_after o) = warnings w.
Proof.
  intros Hhooks.
  unfold _IterDictIndexer_nofifo.finish, nofifo_hook_trace, profile_after,
    indexref_of, hooks_nofifo.
  destruct (decide (type self = MEMORY)) as [Hty|Hty].
  - cbn. by rewrite app_nil_r.
  - specialize (Hhooks Hty). destruct (cleanup_hooks self) as [|h hs] eqn:Hhs.
    + cbn. by rewrite app_nil_r.
    + cbn [length Nat.ltb Nat.leb].
      set (w3 := log _ (setIndexLoadingProfileAsRetrieval false w)).
      destruct (run_hooks_all_return (h :: hs) w3 Hhooks) as [Hres Htr].
      pose proof (run_hooks_frame (h :: hs) w3) as (Hf & Hpr & Hwn).
      destruct (run_hooks (h :: hs) w3) as [w4 r]. cbn in Hres, Htr, Hpr, Hwn, Hf.
      subst r. cbn. rewrite Htr, Hwn, Hf.
      repeat split; try done. by rewrite <- !app_assoc.
Qed.

(** The same when a hook raises. *)
Lemma nofifo_finish_raises self w before h after :
  type self ≠ MEMORY →
  cleanup_hooks self = before ++ h :: after →
  Forall (λ h', hook_raises h' = false) before →
  hook_raises h = true →
  let o := _IterDictIndexer_nofifo.finish self w in
  result_of o = Err (HookError (hook_id h)) ∧
  self_after o = self ∧
  trace (world_after o)
  = trace w ++ EvLoadIndex (indexref_of self) false
      :: hook_events false (before ++ [h]) ∧
  retrieval_profile (world_after o) = false ∧
  files (world_after o) = files w.
Proof.
  intros Hty Hhs Hbefore Hh.
  unfold _IterDictIndexer_nofifo.finish, indexref_of, hooks_nofifo.
  destruct (decide (type self = MEMORY)) as [|_]; [done|].
  rewrite Hhs.
  assert ((0 <? length (before ++ h :: after))%nat = true) as ->.
  { apply Nat.ltb_lt. rewrite length_app. cbn. lia. }
  set (w3 := log _ (setIndexLoadingProfileAsRetrieval false w)).
  destruct (run_hooks_first_raising before h after w3 Hbefore Hh) as [Hres Htr].
  pose proof (run_hooks_frame (before ++ h :: after) w3) as (Hf & Hpr & _).
  destruct (run_hooks (before ++ h :: after) w3) as [w4 r]. cbn in Hres, Htr, Hpr, Hf.
  subst r. cbn. rewrite Htr, Hf, Hpr. repeat split; try done.
  cbn. by rewrite <- !app_assoc.
Qed.

(** X18.  The refusals of [TRECCollectionIndexer.index] that concern its
    arguments, in the order in which the code makes them, once the checks
    at its head have passed.  A [files_path] that is not a list, a [str]
    included, is refused with ['files_path must be a list'] before
    [_TaggedDocumentSetup] runs.  For a list, a key of [meta_tags] without
    a length in [meta] gives [KeyError].  For the empty list with all
    lengths present, ['list files_path cannot be empty'] is raised after
    the [TaggedDocument] properties were set.  In each case the indexer is
    unchanged and the engine has not been called. *)
Theorem trec_index_refuses_arguments
    (configured : gmap string string) (self : file_indexer) (t : jvm)
    (files_path : files_arg) :
  head_passes self t →
  let t1 := with_setup (putAll configured (application_setup t)) t in
  let o := TRECCollectionIndexer.index configured self t files_path in
  ((∀ l, files_path ≠ PathList l) → o = failed self t1 FilesPathNotListError) ∧
  (∀ l, files_path = PathList l →
        ¬ tags_have_lengths (meta (base self)) (meta_tags self) →
        ∃ name, name ∈ (meta_tags self).*1 ∧ dict_get (meta (base self)) name = None ∧
                o = failed self t1 (Raised (PyKeyError name))) ∧
  (files_path = PathList [] →
   tags_have_lengths (meta (base self)) (meta_tags self) →
   o = failed self
         (with_setup (tagged_setup (meta (base self)) (meta_tags self)
                        (application_setup t1)) t1)
         EmptyFilesPathError).
Proof.
  intros Hhead t1 o. subst o t1. unfold TRECCollectionIndexer.index.
  destruct (prepare_passes configured self t Hhead) as [cls ->].
  split; [|split].
  - intros Hnot. destruct files_path as [s|l|ty n]; try done. by destruct (Hnot l).
  - intros l -> Hnot.
    destruct (tagged_setup_raises _ _
                (application_setup (with_setup (putAll configured (application_setup t)) t))
                Hnot) as (before & name & after & Heq & Hn & _ & ->).
    exists name. split; [rewrite Heq; set_solver|]. split; [done|].
    by destruct t.
  - intros -> Htags. rewrite (tagged_setup_returns _ _ _ Htags).
    unfold createCollection, putAll. rewrite (left_id_L ∅ (∪)). done.
Qed.

Lemma trec_index_refuses_arguments_witness :
  head_passes trec_indexer fresh_jvm ∧
  let t1 := with_setup (putAll ∅ (application_setup fresh_jvm)) fresh_jvm in
  let o := TRECCollectionIndexer.index ∅ trec_indexer fresh_jvm (PathStr "docs.trec") in
  ((∀ l, PathStr "docs.trec" ≠ PathList l) →
   o = failed trec_indexer t1 FilesPathNotListError) ∧
  (∀ l, PathStr "docs.trec" = PathList l →
        ¬ tags_have_lengths (meta (base trec_indexer)) (meta_tags trec_indexer) →
        ∃ name, name ∈ (meta_tags trec_indexer).*1 ∧
                dict_get (meta (base trec_indexer)) name = None ∧
                o = failed trec_indexer t1 (Raised (PyKeyError name))) ∧
  (PathStr "docs.trec" = PathList [] →
   tags_have_lengths (meta (base trec_indexer)) (meta_tags trec_indexer) →
   o = failed trec_indexer
         (with_setup (tagged_setup (meta (base trec_indexer)) (meta_tags trec_indexer)
                        (application_setup t1)) t1)
         EmptyFilesPathError).
Proof.
  assert (H1 : head_passes trec_indexer fresh_jvm)
    by (split; [vm_compute; reflexivity|reflexivity]).
  split; [exact H1|].
  exact (trec_index_refuses_arguments ∅ trec_indexer fresh_jvm (PathStr "docs.trec") H1).
Defined.

(** X19.  When the checks at its head pass, every key of [meta_tags] has a
    length, the list of files is not empty and no hook raises,
    [TRECCollectionIndexer.index] returns the index reference and sets
    [index_called].  The engine has indexed one collection, of the given
    files in order, whose class names joined by commas are the class the
    constructor resolved [collection] to (resolving it once more in
    [createCollection] changes nothing).  The hooks have run in
    registration order, for a memory index as well, and the loading profile
    was not touched. *)
Theorem trec_index_completes
    (configured : gmap string string) (self : file_indexer) (t : jvm)
    (l : list string) (coll : string) :
  head_passes self t →
  tags_have_lengths (meta (base self)) (meta_tags self) →
  l ≠ [] →
  collection self = resolve coll →
  Forall (λ h, hook_raises h = false) (cleanup_hooks (base self)) →
  let o := TRECCollectionIndexer.index configured self t (PathList l) in
  outcome_of o = Returned (indexref_of (base self)) ∧
  indexer_after o = called self ∧
  (∃ classes, indexed (jvm_after o) = indexed t ++ [LoadedCollection classes l] ∧
              join classes = resolve coll) ∧
  application_setup (jvm_after o)
  = tagged_setup (meta (base self)) (meta_tags self)
      (putAll configured (application_setup t)) ∧
  trace (host (jvm_after o))
  = trace (host t)
    ++ hook_events (retrieval_profile (host t)) (cleanup_hooks (base self)) ∧
  retrieval_profile (host (jvm_after o)) = retrieval_profile (host t) ∧
  files (host (jvm_after o)) = files (create_file (path (base self)) (host t)).
Proof.
  intros Hhead Htags Hl Hcoll Hhooks o. subst o.
  rewrite (trec_index_runs configured self t l Hhead Htags Hl). cbv zeta.
  set (t2 := engine_index _ _ _).
  destruct (run_hooks_all_return (cleanup_hooks (base self)) (host t2) Hhooks)
    as [Hres Htr].
  pose proof (run_hooks_frame (cleanup_hooks (base self)) (host t2)) as (Hf & Hp & _).
  rewrite Hres. cbn [outcome_of indexer_after jvm_after with_host host
                     application_setup indexed].
  rewrite Htr, Hf, Hp. repeat split; try done.
  exists (split "," (resolve (collection self))). split; [done|].
  by rewrite join_split, Hcoll, resolve_idempotent.
Qed.

Lemma trec_index_completes_witness :
  head_passes (with_hooks [h2] trec_indexer) fresh_jvm ∧
  tags_have_lengths (meta (base (with_hooks [h2] trec_indexer)))
    (meta_tags (with_hooks [h2] trec_indexer)) ∧
  ["a.trec"; "b.trec"] ≠ [] ∧
  collection (with_hooks [h2] trec_indexer) = resolve "trec" ∧
  Forall (λ h, hook_raises h = false) (cleanup_hooks (base (with_hooks [h2] trec_indexer))) ∧
  let self := with_hooks [h2] trec_indexer in
  let o := TRECCollectionIndexer.index ∅ self fresh_jvm (PathList ["a.trec"; "b.trec"]) in
  outcome_of o = Returned (indexref_of (base self)) ∧
  indexer_after o = called self ∧
  (∃ classes,
     indexed (jvm_after o)
     = indexed fresh_jvm ++ [LoadedCollection classes ["a.trec"; "b.trec"]] ∧
     join classes = resolve "trec") ∧
  application_setup (jvm_after o)
  = tagged_setup (meta (base self)) (meta_tags self)
      (putAll ∅ (application_setup fresh_jvm)) ∧
  trace (host (jvm_after o))
  = trace (host fresh_jvm)
    ++ hook_events (retrieval_profile (host fresh_jvm)) (cleanup_hooks (base self)) ∧
  retrieval_profile (host (jvm_after o)) = retrieval_profile (host fresh_jvm) ∧
  files (host (jvm_after o)) = files (create_file (path (base self)) (host fresh_jvm)).
Proof.
  assert (H1 : head_passes (with_hooks [h2] trec_indexer) fresh_jvm)
    by (split; [vm_compute; reflexivity|reflexivity]).
  assert (H2 : tags_have_lengths (meta (base (with_hooks [h2] trec_indexer)))
                 (meta_tags (with_hooks [h2] trec_indexer)))
    by (apply (bool_decide_unpack _); vm_compute; exact I).
  assert (H3 : ["a.trec"; "b.trec"] ≠ []) by discriminate.
  assert (H4 : collection (with_hooks [h2] trec_indexer) = resolve "trec") by reflexivity.
  assert (H5 : Forall (λ h, hook_raises h = false)
                 (cleanup_hooks (base (with_hooks [h2] trec_indexer))))
    by (apply (bool_decide_unpack _); vm_compute; exact I).
  split; [exact H1|]. split; [exact H2|]. split; [exact H3|]. split; [exact H4|].
  split; [exact H5|].
  exact (trec_index_completes ∅ (with_hooks [h2] trec_indexer) fresh_jvm
           ["a.trec"; "b.trec"] "trec" H1 H2 H3 H4 H5).
Defined.

(** X20.  When the checks at its head pass, [files_path] is a [str] or a
    [list] (an empty one included) and every key of [meta_tags] has a
    length, [_FileDocumentSetup] cannot fail, and if no hook that runs
    raises, [FilesIndexer.index] returns the index reference and sets
    [index_called].  The engine has indexed one collection of the given
    files, a [str] counting as one file.  For an on-disk index with hooks
    the hooks run in registration order with the loading profile off, and
    the profile is on afterwards; for a memory index no hook runs. *)
Theorem files_index_completes
    (configured : gmap string string) (self : file_indexer) (t : jvm)
    (files_path : files_arg) :
  head_passes self t →
  (∀ ty len, files_path ≠ PathOther ty len) →
  tags_have_lengths (meta (base self)) (meta_tags self) →
  (type (base self) ≠ MEMORY →
   Forall (λ h, hook_raises h = false) (cleanup_hooks (base self))) →
  let o := FilesIndexer.index configured self t files_path in
  outcome_of o = Returned (indexref_of (base self)) ∧
  indexer_after o = called self ∧
  indexed (jvm_after o)
  = indexed t ++ [SimpleFileCollection
                    match files_path with
                    | PathStr s => [s]
                    | PathList l => l
                    | PathOther _ _ => []
                    end] ∧
  application_setup (jvm_after o)
  = (_FileDocumentSetup (meta (base self)) (meta_tags self)
       (tagged_setup (meta (base self)) (meta_tags self)
          (putAll configured (application_setup t)))).1 ∧
  trace (host (jvm_after o)) = trace (host t) ++ nofifo_hook_trace (base self) ∧
  retrieval_profile (host (jvm_after o)) = profile_after (base self) (host t) ∧
  files (host (jvm_after o)) = files (create_file (path (base self)) (host t)).
Proof.
  intros Hhead Hpath Htags Hhooks o. subst o.
  set (l := match files_path with
            | PathStr s => [s] | PathList l => l | PathOther _ _ => []
            end).
  assert (Hl : createAsList files_path = Returned l).
  { destruct files_path as [s|l'|ty len]; try done. by destruct (Hpath ty len). }
  rewrite (files_index_runs configured self t files_path l Hhead Hl Htags). cbv zeta.
  set (t2 := engine_index _ _ _).
  pose proof (nofifo_finish_returns (set_index_called true (base self)) (host t2) Hhooks)
    as (Hres & Hself & Htr & Hp & Hf & _).
  cbv zeta in Hres, Hself, Htr, Hp, Hf.
  cbn [outcome_of indexer_after jvm_after with_host host application_setup indexed].
  rewrite Hres, Hself, Htr, Hp, Hf. repeat split; done.
Qed.

Lemma files_index_completes_witness :
  head_passes (with_hooks [h2] files_indexer) fresh_jvm ∧
  (∀ ty len, PathStr "report.pdf" ≠ PathOther ty len) ∧
  tags_have_lengths (meta (base (with_hooks [h2] files_indexer)))
    (meta_tags (with_hooks [h2] files_indexer)) ∧
  (type (base (with_hooks [h2] files_indexer)) ≠ MEMORY →
   Forall (λ h, hook_raises h = false)
     (cleanup_hooks (base (with_hooks [h2] files_indexer)))) ∧
  let self := with_hooks [h2] files_indexer in
  let o := FilesIndexer.index ∅ self fresh_jvm (PathStr "report.pdf") in
  outcome_of o = Returned (indexref_of (base self)) ∧
  indexer_after o = called self ∧
  indexed (jvm_after o) = indexed fresh_jvm ++ [SimpleFileCollection ["report.pdf"]] ∧
  application_setup (jvm_after o)
  = (_FileDocumentSetup (meta (base self)) (meta_tags self)
       (tagged_setup (meta (base self)) (meta_tags self)
          (putAll ∅ (application_setup fresh_jvm)))).1 ∧
  trace (host (jvm_after o)) = trace (host fresh_jvm) ++ nofifo_hook_trace (base self) ∧
  retrieval_profile (host (jvm_after o)) = profile_after (base self) (host fresh_jvm) ∧
  files (host (jvm_after o)) = files (create_file (path (base self)) (host fresh_jvm)).
Proof.
  assert (H1 : head_passes (with_hooks [h2] files_indexer) fresh_jvm)
    by (split; [vm_compute; reflexivity|reflexivity]).
  assert (H2 : ∀ ty len, PathStr "report.pdf" ≠ PathOther ty len) by discriminate.
  assert (H3 : tags_have_lengths (meta (base (with_hooks [h2] files_indexer)))
                 (meta_tags (with_hooks [h2] files_indexer)))
    by (apply (bool_decide_unpack _); vm_compute; exact I).
  assert (H4 : type (base (with_hooks [h2] files_indexer)) ≠ MEMORY →
               Forall (λ h, hook_raises h = false)
                 (cleanup_hooks (base (with_hooks [h2] files_indexer))))
    by (intros _; apply (bool_decide_unpack _); vm_compute; exact I).
  split; [exact H1|]. split; [exact H2|]. split; [exact H3|]. split; [exact H4|].
  exact (files_index_completes ∅ (with_hooks [h2] files_indexer) fresh_jvm
           (PathStr "report.pdf") H1 H2 H3 H4).
Defined.

(** X21.  A cleanup hook that raises in [TRECCollectionIndexer.index]: the
    exception is raised by [index] after the engine has built the index and
    [index_called] was set; the hooks registered before it have run, those
    after it have not; and the loading profile is as it was, whatever the
    type of the index. *)
Theorem trec_index_hook_failure
    (configured : gmap string string) (self : file_indexer) (t : jvm)
    (l : list string) (before : list hook) (h : hook) (after : list hook) :
  head_passes self t →
  tags_have_lengths (meta (base self)) (meta_tags self) →
  l ≠ [] →
  cleanup_hooks (base self) = before ++ h :: after →
  Forall (λ h', hook_raises h' = false) before →
  hook_raises h = true →
  let o := TRECCollectionIndexer.index configured self t (PathList l) in
  outcome_of o = Failed (Raised (HookError (hook_id h))) ∧
  indexer_after o = called self ∧
  built t o ∧
  trace (host (jvm_after o))
  = trace (host t) ++ hook_events (retrieval_profile (host t)) (before ++ [h]) ∧
  retrieval_profile (host (jvm_after o)) = retrieval_profile (host t).
Proof.
  intros Hhead Htags Hl Hhs Hbefore Hh o. subst o. unfold built.
  rewrite (trec_index_runs configured self t l Hhead Htags Hl). cbv zeta.
  set (t2 := engine_index _ _ _). rewrite Hhs.
  destruct (run_hooks_first_raising before h after (host t2) Hbefore Hh) as [Hres Htr].
  pose proof (run_hooks_frame (before ++ h :: after) (host t2)) as (_ & Hp & _).
  rewrite Hres. cbn [failed outcome_of indexer_after jvm_after with_host host indexed].
  rewrite Htr, Hp. repeat split; try done. by eexists.
Qed.

Lemma trec_index_hook_failure_witness :
  head_passes (with_hooks [h2; h1; h2] trec_indexer) fresh_jvm ∧
  tags_have_lengths (meta (base (with_hooks [h2; h1; h2] trec_indexer)))
    (meta_tags (with_hooks [h2; h1; h2] trec_indexer)) ∧
  ["a.trec"] ≠ [] ∧
  cleanup_hooks (base (with_hooks [h2; h1; h2] trec_indexer)) = [h2] ++ h1 :: [h2] ∧
  Forall (λ h', hook_raises h' = false) [h2] ∧
  hook_raises h1 = true ∧
  let o := TRECCollectionIndexer.index ∅ (with_hooks [h2; h1; h2] trec_indexer)
             fresh_jvm (PathList ["a.trec"]) in
  outcome_of o = Failed (Raised (HookError (hook_id h1))) ∧
  indexer_after o = called (with_hooks [h2; h1; h2] trec_indexer) ∧
  built fresh_jvm o ∧
  trace (host (jvm_after o))
  = trace (host fresh_jvm)
    ++ hook_events (retrieval_profile (host fresh_jvm)) ([h2] ++ [h1]) ∧
  retrieval_profile (host (jvm_after o)) = retrieval_profile (host fresh_jvm).
Proof.
  assert (H1 : head_passes (with_hooks [h2; h1; h2] trec_indexer) fresh_jvm)
    by (split; [vm_compute; reflexivity|reflexivity]).
  assert (H2 : tags_have_lengths (meta (base (with_hooks [h2; h1; h2] trec_indexer)))
                 (meta_tags (with_hooks [h2; h1; h2] trec_indexer)))
    by (apply (bool_decide_unpack _); vm_compute; exact I).
  assert (H3 : ["a.trec"] ≠ []) by discriminate.
  assert (H4 : cleanup_hooks (base (with_hooks [h2; h1; h2] trec_indexer))
               = [h2] ++ h1 :: [h2]) by reflexivity.
  assert (H5 : Forall (λ h', hook_raises h' = false) [h2])
    by (apply (bool_decide_unpack _); vm_compute; exact I).
  assert (H6 : hook_raises h1 = true) by reflexivity.
  split; [exact H1|]. split; [exact H2|]. split; [exact H3|]. split; [exact H4|].
  split; [exact H5|]. split; [exact H6|].
  exact (trec_index_hook_failure ∅ (with_hooks [h2; h1; h2] trec_indexer) fresh_jvm
           ["a.trec"] [h2] h1 [h2] H1 H2 H3 H4 H5 H6).
Defined.

(** X22.  A cleanup hook that raises in [FilesIndexer.index], for an
    on-disk index: the exception is raised by [index] after the engine has
    built the index and [index_called] was set; the hooks before it have
    run with the loading profile off, those after it have not run; and the
    loading profile is left off. *)
Theorem files_index_hook_failure
    (configured : gmap string string) (self : file_indexer) (t : jvm)
    (files_path : files_arg) (l : list string)
    (before : list hook) (h : hook) (after : list hook) :
  head_passes self t →
  createAsList files_path = Returned l →
  tags_have_lengths (meta (base self)) (meta_tags self) →
  type (base self) ≠ MEMORY →
  cleanup_hooks (base self) = before ++ h :: after →
  Forall (λ h', hook_raises h' = false) before →
  hook_raises h = true →
  let o := FilesIndexer.index configured self t files_path in
  outcome_of o = Failed (Raised (HookError (hook_id h))) ∧
  indexer_after o = called self ∧
  indexed (jvm_after o) = indexed t ++ [SimpleFileCollection l] ∧
  trace (host (jvm_after o))
  = trace (host t) ++ EvLoadIndex (indexref_of (base self)) false
      :: hook_events false (before ++ [h]) ∧
  retrieval_profile (host (jvm_after o)) = false.
Proof.
  intros Hhead Hl Htags Hty Hhs Hbefore Hh o. subst o.
  rewrite (files_index_runs configured self t files_path l Hhead Hl Htags). cbv zeta.
  set (t2 := engine_index _ _ _).
  pose proof (nofifo_finish_raises (set_index_called true (base self)) (host t2)
                before h after Hty Hhs Hbefore Hh) as (Hres & Hself & Htr & Hp & _).
  cbv zeta in Hres, Hself, Htr, Hp.
  cbn [outcome_of indexer_after jvm_after with_host host indexed].
  rewrite Hres, Hself, Htr, Hp. repeat split; done.
Qed.

Lemma files_index_hook_failure_witness :
  head_passes (with_hooks [h2; h1; h2] files_indexer) fresh_jvm ∧
  createAsList (PathList ["a.pdf"; "b.txt"]) = Returned ["a.pdf"; "b.txt"] ∧
  tags_have_lengths (meta (base (with_hooks [h2; h1; h2] files_indexer)))
    (meta_tags (with_hooks [h2; h1; h2] files_indexer)) ∧
  type (base (with_hooks [h2; h1; h2] files_indexer)) ≠ MEMORY ∧
  cleanup_hooks (base (with_hooks [h2; h1; h2] files_indexer)) = [h2] ++ h1 :: [h2] ∧
  Forall (λ h', hook_raises h' = false) [h2] ∧
  hook_raises h1 = true ∧
  let self := with_hooks [h2; h1; h2] files_indexer in
  let o := FilesIndexer.index ∅ self fresh_jvm (PathList ["a.pdf"; "b.txt"]) in
  outcome_of o = Failed (Raised (HookError (hook_id h1))) ∧
  indexer_after o = called self ∧
  indexed (jvm_after o) = indexed fresh_jvm ++ [SimpleFileCollection ["a.pdf"; "b.txt"]] ∧
  trace (host (jvm_after o))
  = trace (host fresh_jvm) ++ EvLoadIndex (indexref_of (base self)) false
      :: hook_events false ([h2] ++ [h1]) ∧
  retrieval_profile (host (jvm_after o)) = false.
Proof.
  assert (H1 : head_passes (with_hooks [h2; h1; h2] files_indexer) fresh_jvm)
    by (split; [vm_compute; reflexivity|reflexivity]).
  assert (H2 : createAsList (PathList ["a.pdf"; "b.txt"]) = Returned ["a.pdf"; "b.txt"])
    by reflexivity.
  assert (H3 : tags_have_lengths (meta (base (with_hooks [h2; h1; h2] files_indexer)))
                 (meta_tags (with_hooks [h2; h1; h2] files_indexer)))
    by (apply (bool_decide_unpack _); vm_compute; exact I).
  assert (H4 : type (base (with_hooks [h2; h1; h2] files_indexer)) ≠ MEMORY)
    by discriminate.
  assert (H5 : cleanup_hooks (base (with_hooks [h2; h1; h2] files_indexer))
               = [h2] ++ h1 :: [h2]) by reflexivity.
  assert (H6 : Forall (λ h', hook_raises h' = false) [h2])
    by (apply (bool_decide_unpack _); vm_compute; exact I).
  assert (H7 : hook_raises h1 = true) by reflexivity.
  split; [exact H1|]. split; [exact H2|]. split; [exact H3|]. split; [exact H4|].
  split; [exact H5|]. split; [exact H6|]. split; [exact H7|].
  exact (files_index_hook_failure ∅ (with_hooks [h2; h1; h2] files_indexer) fresh_jvm
           (PathList ["a.pdf"; "b.txt"]) ["a.pdf"; "b.txt"] [h2] h1 [h2]
           H1 H2 H3 H4 H5 H6 H7).
Defined.

Lemma nofifo_finish_frame self w :
  self_after (_IterDictIndexer_nofifo.finish self w) = self ∧
  files (world_after (_IterDictIndexer_nofifo.finish self w)) = files w.
Proof.
  unfold _IterDictIndexer_nofifo.finish.
  destruct (decide (type self = MEMORY)); [done|]. apply hooks_nofifo_frame.
Qed.

(** Either [index] stops before the engine is called and leaves the indexer
    as it was, or the engine is called and [index_called] is set. *)
Lemma trec_index_cases configured self t files_path :
  let o := TRECCollectionIndexer.index configured self t files_path in
  (indexed (jvm_after o) = indexed t ∧ host (jvm_after o) = host t ∧
   indexer_after o = self ∧ has_returned (outcome_of o) = false) ∨
  (built t o ∧ indexer_after o = called self ∧
   files (host (jvm_after o)) = files (create_file (path (base self)) (host t))).
Proof.
  cbv zeta. unfold built, TRECCollectionIndexer.index, prepare.
  destruct (checkIndexExists (base self) (host t)) as [[]|e]; [|by left].
  destruct (createIndexer (base self)) as [cls|e]; cbn [lift]; [|by left].
  destruct files_path as [s|l|ty len]; [by left| |by left].
  destruct (_TaggedDocumentSetup _ _ _) as [app [[]|e]]; [|by left].
  destruct (createCollection _ _ _ _) as [app' [colObj|e]]; [|by left].
  right.
  match goal with
  | |- context [run_hooks ?hs ?w] =>
      pose proof (run_hooks_frame hs w) as (Hf & _ & _);
      destruct (run_hooks hs w) as [w' [[]|e]]
  end; cbn in Hf |- *; (split; [by eexists|]); by rewrite ?Hf.
Qed.

Lemma files_index_cases configured self t files_path :
  let o := FilesIndexer.index configured self t files_path in
  (indexed (jvm_after o) = indexed t ∧ host (jvm_after o) = host t ∧
   indexer_after o = self ∧ has_returned (outcome_of o) = false) ∨
  (built t o ∧ indexer_after o = called self ∧
   files (host (jvm_after o)) = files (create_file (path (base self)) (host t))).
Proof.
  cbv zeta. unfold built, FilesIndexer.index, prepare.
  destruct (checkIndexExists (base self) (host t)) as [[]|e]; [|by left].
  destruct (createIndexer (base self)) as [cls|e]; cbn [lift]; [|by left].
  destruct (createAsList files_path) as [asList|e]; [|by left].
  destruct (_TaggedDocumentSetup _ _ _) as [app [[]|e]]; [|by left].
  destruct (_FileDocumentSetup _ _ _) as [app' [[]|e]]; [|by left].
  right.
  match goal with
  | |- context [_IterDictIndexer_nofifo.finish ?s ?w] =>
      destruct (nofifo_finish_frame s w) as [Hs Hf]
  end.
  cbn [indexer_after jvm_after with_host host indexed engine_index called base] in *.
  rewrite Hs, Hf. split; [by eexists|]. done.
Qed.

(** Once [index_called] is set, an indexer with a path is refused by the
    check at the head of [index], in every state. *)
Lemma called_indexer_refused self w p :
  path self = Some p →
  ∃ e, checkIndexExists (set_index_called true self) w = Err e ∧
       is_guard_error e = true.
Proof.
  intros Hp. unfold checkIndexExists. cbn [path set_index_called overwrite index_called].
  rewrite Hp. destruct (bool_decide (p ∈ files w) && negb (overwrite self)); by eexists.
Qed.

(** X23.  In [TRECCollectionIndexer.index] and [FilesIndexer.index] the
    flag [index_called] is set exactly when the engine was called: a call
    that fails before the build leaves the indexer as it was and the engine
    with the collections it had; a call that gets to the build sets the flag
    and leaves the index file at the path, also when a cleanup hook raises
    afterwards.  An indexer with a path that has got to the build refuses
    every later call of either method at the check of its head, for every
    argument and in every state, and that call changes nothing. *)
Theorem file_index_called_iff_built
    (trec : bool) (configured : gmap string string) (self : file_indexer)
    (t : jvm) (files_path : files_arg) :
  let index_of (trec : bool) :=
    if trec then TRECCollectionIndexer.index else FilesIndexer.index in
  let o := index_of trec configured self t files_path in
  ((indexed (jvm_after o) = indexed t ∧ host (jvm_after o) = host t ∧
    indexer_after o = self ∧ has_returned (outcome_of o) = false) ∨
   (built t o ∧ indexer_after o = called self ∧
    files (host (jvm_after o)) = files (create_file (path (base self)) (host t)))) ∧
  (built t o → is_Some (path (base self)) →
   ∀ trec' configured' t' files_path',
     ∃ e, is_guard_error e = true ∧
          index_of trec' configured' (indexer_after o) t' files_path'
          = failed (indexer_after o) t' (Raised e)).
Proof.
  intros index_of o.
  assert (Hcases :
    (indexed (jvm_after o) = indexed t ∧ host (jvm_after o) = host t ∧
     indexer_after o = self ∧ has_returned (outcome_of o) = false) ∨
    (built t o ∧ indexer_after o = called self ∧
     files (host (jvm_after o)) = files (create_file (path (base self)) (host t)))).
  { subst o index_of. destruct trec; [apply trec_index_cases|apply files_index_cases]. }
  split; [exact Hcases|].
  intros [c Hc] [p Hp] trec' configured' t' files_path'.
  destruct Hcases as [(Hsame & _)|(_ & Hself & _)].
  { rewrite Hsame in Hc. apply (f_equal length) in Hc. rewrite length_app in Hc.
    cbn in Hc. lia. }
  rewrite Hself.
  destruct (called_indexer_refused (base self) (host t') p Hp) as (e & He & Hguard).
  exists e. split; [done|]. subst index_of.
  destruct trec'; cbv beta iota;
    unfold TRECCollectionIndexer.index, FilesIndexer.index, prepare;
    cbn [called base]; by rewrite He.
Qed.

(** X24.  [FilesIndexer.index] never raises the [ValueError] of
    [_FileDocumentSetup] (['You need to specify a meta length for ...']):
    [_TaggedDocumentSetup] runs first and needs a length for every key of
    [meta_tags], the key tagged [ELSE] among them.  When the checks at the
    head pass, [files_path] is a [str] or a [list], and the key tagged
    [ELSE] has no length in [meta], [index] raises [KeyError] for a key of
    [meta_tags] without a length, with the indexer unchanged and nothing
    built. *)
Theorem files_index_meta_length_error_unreachable
    (configured : gmap string string) (self : file_indexer) (t : jvm)
    (files_path : files_arg) :
  let o := FilesIndexer.index configured self t files_path in
  (∀ k, outcome_of o ≠ Failed (MetaLengthRequiredError k)) ∧
  (head_passes self t →
   has_returned (createAsList files_path) = true →
   ∀ k, meta_name_for_abstract (meta_tags self) = Some k →
        dict_get (meta (base self)) k = None →
        ∃ name, name ∈ (meta_tags self).*1 ∧
                dict_get (meta (base self)) name = None ∧
                o = failed self (with_setup (putAll configured (application_setup t)) t)
                      (Raised (PyKeyError name))).
Proof.
  intros o. subst o. split.
  - intros k. unfold FilesIndexer.index.
    destruct (prepare configured self t) as [t1 [cls|e]] eqn:Hprep.
    2:{ unfold prepare in Hprep.
        destruct (checkIndexExists (base self) (host t)) as [[]|e'].
        - destruct (createIndexer (base self)); cbn [lift] in Hprep; [done|].
          by injection Hprep as <- <-.
        - by injection Hprep as <- <-. }
    destruct (createAsList files_path) as [asList|e] eqn:Hl.
    2:{ destruct files_path; cbn in Hl; try done. by injection Hl as <-. }
    destruct (decide (tags_have_lengths (meta (base self)) (meta_tags self)))
      as [Htags|Hnot].
    + rewrite (tagged_setup_returns _ _ _ Htags).
      pose proof (file_setup_after_tagged_setup (meta (base self)) (meta_tags self)
        (application_setup
           (with_setup (tagged_setup (meta (base self)) (meta_tags self)
                          (application_setup t1)) t1)) Htags) as Hfile.
      destruct (_FileDocumentSetup _ _ _) as [app1 r]. cbn [snd] in Hfile. subst r.
      cbn [outcome_of].
      by destruct (result_of _).
    + by destruct (tagged_setup_raises _ _ (application_setup t1) Hnot)
        as (before & name & after & _ & _ & _ & ->).
  - intros Hhead Hl k Hk Hnone.
    assert (Hnot : ¬ tags_have_lengths (meta (base self)) (meta_tags self)).
    { intros Htags.
      apply meta_name_for_abstract_last in Hk as (before & after & Heq & _).
      unfold tags_have_lengths in Htags. rewrite Heq, fmap_app, fmap_cons in Htags.
      apply Forall_app in Htags as [_ Htags].
      apply Forall_cons in Htags as [[le Hle] _]. cbn [fst] in Hle. congruence. }
    unfold FilesIndexer.index.
    destruct (prepare_passes configured self t Hhead) as [cls ->].
    destruct (createAsList files_path) as [asList|e]; [|done].
    destruct (tagged_setup_raises _ _
                (application_setup (with_setup (putAll configured (application_setup t)) t))
                Hnot) as (before & name & after & Heq & Hn & _ & ->).
    exists name. split; [rewrite Heq; set_solver|]. split; [done|]. by destruct t.
Qed.



(** ** [DFIndexUtils.get_column_lengths] *)

Lemma series_max_bound l n :
  series_max l = Some n → Forall (λ m, (m ≤ n)%nat) l ∧ n ∈ l.
Proof.
  destruct l as [|a rest]; [done|]. cbn [series_max]. intros [= <-].
  induction rest as [|b rest [IHle IHin]]; cbn [foldr].
  - split; [by repeat constructor|set_solver].
  - apply Forall_cons in IHle as [Ha Hrest]. split.
    + repeat constructor; [lia|lia|]. eapply Forall_impl; [exact Hrest|].
      intros m Hm. cbn in Hm. lia.
    + destruct (Nat.max_spec b (foldr Nat.max a rest)) as [[_ ->]|[_ ->]].
      * apply elem_of_cons in IHin as [->|Hin]; set_solver.
      * set_solver.
Qed.

(** X26.  For a frame with distinct column names,
    [get_column_lengths] gives every column a length that no cell of the
    column exceeds when printed, [None] counting as length 0; for a column
    with rows that length is reached by one of its cells, and for a frame
    without rows it is 1.  The keys of the result are the column names, in
    the order of the frame. *)
Theorem get_column_lengths_bound
    (df : list (string * list cell)) (v : string) (col : list cell) :
  NoDup df.*1 →
  (v, col) ∈ df →
  (get_column_lengths df).*1 = df.*1 ∧
  ∃ n, dict_get (get_column_lengths df) v = Some n ∧
       (∀ r, r ∈ col → (cell_len r ≤ n)%nat) ∧
       (col ≠ [] → ∃ r, r ∈ col ∧ cell_len r = n) ∧
       (col = [] → n = 1%nat).
Proof.
  intros Hnodup Hin.
  assert (Hkeys : (get_column_lengths df).*1 = df.*1).
  { unfold get_column_lengths. rewrite <- list_fmap_compose. by apply list_fmap_ext. }
  split; [exact Hkeys|].
  exists (default 1%nat (series_max (cell_len <$> col))). split.
  { unfold dict_get. apply elem_of_list_to_map_1; [by rewrite Hkeys|].
    unfold get_column_lengths. apply list_elem_of_fmap. by exists (v, col). }
  destruct (series_max (cell_len <$> col)) as [n|] eqn:Hmax; cbn.
  - apply series_max_bound in Hmax as [Hle Hmem]. split; [|split].
    + intros r Hr. rewrite Forall_forall in Hle. apply Hle.
      apply list_elem_of_fmap. by exists r.
    + intros _. apply list_elem_of_fmap in Hmem as (r & -> & Hr). by exists r.
    + intros ->. by apply elem_of_nil in Hmem.
  - destruct col; [|done]. split; [|split]; [|done|done].
    intros r Hr. by apply elem_of_nil in Hr.
Qed.

Lemma get_column_lengths_bound_witness :
  NoDup two_row_frame.*1 ∧
  ("text", [CValue "a b"; CNone]) ∈ two_row_frame ∧
  (get_column_lengths two_row_frame).*1 = two_row_frame.*1 ∧
  ∃ n, dict_get (get_column_lengths two_row_frame) "text" = Some n ∧
       (∀ r, r ∈ [CValue "a b"; CNone] → (cell_len r ≤ n)%nat) ∧
       ([CValue "a b"; CNone] ≠ [] → ∃ r, r ∈ [CValue "a b"; CNone] ∧ cell_len r = n) ∧
       ([CValue "a b"; CNone] = [] → n = 1%nat).
Proof.
  assert (H1 : NoDup two_row_frame.*1)
    by (apply (bool_decide_unpack _); vm_compute; exact I).
  assert (H2 : ("text", [CValue "a b"; CNone]) ∈ two_row_frame)
    by (apply (bool_decide_unpack _); vm_compute; exact I).
  split; [exact H1|]. split; [exact H2|].
  exact (get_column_lengths_bound two_row_frame "text" [CValue "a b"; CNone] H1 H2).
Defined.
